(** * Evaluation harness of the heuristic-search challenge

    A shallow embedding of [evaluator/part1.py]: the turn calculator
    [calculate_total_turns] and the evaluation entry point
    [execute_heuristic_search] (search runner, resource monitor, outcome
    validator and scorer), followed by the properties of the harness.

    Conventions of the embedding.
    - Python floats that hold measurements (seconds, megabytes, limits) are
      exact rationals [Q]; the only non-finite float the module builds,
      [float('inf')], is the constructor [PInf] of [xnum].
    - Exceptions are values of [exn]; code that may raise returns a
      [result]; a [return] from inside the agent loop is a [flow].
    - The two dictionaries [agents] and [results] are [gmap string _].
    - The board, the agents, the process-memory probe and the clock are
      collaborators outside the module; they appear as an interface
      ([GameBoard]), as records of observable behaviour ([Agent],
      [Probe]). *)

From Stdlib Require Import ZArith QArith Qround List Bool Lia Lqa.
From stdpp Require Import gmap strings.
Import ListNotations.

Local Open Scope Z_scope.

(** ** Python values and exceptions *)

Inductive exn : Type :=
  | KeyError (key : string)
  | TypeError
  | AssertionError (msg : string)
  | InvalidMove
  | InvalidFence
  | OtherError (code : nat).

Inductive result (A : Type) : Type :=
  | Return (a : A)
  | Raise (e : exn).
Arguments Return {A} a.
Arguments Raise {A} e.

(** Exceptions propagate through a sequence of statements. *)
#[global] Instance result_ret : MRet result := fun _ a => Return a.
#[global] Instance result_bind : MBind result := fun _ _ f r =>
  match r with
  | Return a => f a
  | Raise e => Raise e
  end.

(** [float('inf')] or a number of turns. *)
Inductive xnum : Type :=
  | Fin (z : Z)
  | PInf.

Definition xnum_ge (a b : xnum) : bool :=
  match a, b with
  | PInf, _ => true
  | Fin _, PInf => false
  | Fin x, Fin y => y <=? x
  end.

Definition xnum_gt0 (a : xnum) : bool :=
  match a with
  | PInf => true
  | Fin x => 0 <? x
  end.

Definition xnum_eqb (a b : xnum) : bool :=
  match a, b with
  | PInf, PInf => true
  | Fin x, Fin y => x =? y
  | _, _ => false
  end.

(** ** Actions and solutions *)

Definition player_id := string.
Definition coord := (Z * Z)%type.

(** Modelled from the spec: the [action] module is not part of the sources.
    An Action is a move-kind variant carrying a player identifier and a
    target grid coordinate, or another variant (a fence placement, say)
    that is opaque to the harness. *)
Inductive Action : Type :=
  | MOVE (player : player_id) (position : coord)
  | OTHER (tag : nat).

(** An element of a returned sequence: an Action, or an object of another
    class. *)
Inductive pyobj : Type :=
  | Act (a : Action)
  | Junk (n : nat).

(** What [heuristic_search] may hand back: None, a list, a tuple or a
    number. One-shot iterators and generators are not among these values. *)
Inductive pyvalue : Type :=
  | PyNone
  | PyList (l : list pyobj)
  | PyTuple (l : list pyobj)
  | PyInt (z : Z).

(** Truth value of an object, as [not solution] tests it. *)
Definition truthy (v : pyvalue) : bool :=
  match v with
  | PyNone => false
  | PyList l | PyTuple l => negb (Nat.eqb (length l) 0)
  | PyInt z => negb (z =? 0)
  end.

(** The elements a [for] loop or a [*solution] unpacking sees; [None] for
    an object that is not iterable. *)
Definition iterate (v : pyvalue) : option (list pyobj) :=
  match v with
  | PyList l | PyTuple l => Some l
  | PyNone | PyInt _ => None
  end.

Definition is_None (v : pyvalue) : bool :=
  match v with PyNone => true | _ => false end.

Definition isinstance_list (v : pyvalue) : bool :=
  match v with PyList _ => true | _ => false end.

Definition isinstance_Action (o : pyobj) : bool :=
  match o with Act _ => true | Junk _ => false end.

Definition isinstance_MOVE (o : pyobj) : bool :=
  match o with Act (MOVE _ _) => true | _ => false end.

(** ** The board interface *)

(** Modelled from the spec: the [board] module is not part of the sources.
    The board reports a pawn's grid location, the turn cost of a move
    between two coordinates, applies a batch of actions (raising on a rule
    violation) and tells whether the state is terminal. *)
Class GameBoard (B : Type) : Type := {
  pawn_location : B -> player_id -> coord;
  get_move_turns : B -> coord -> coord -> Z;
  simulate_action : B -> list pyobj -> result B;
  is_game_end : B -> bool
}.

(** ** Turn calculator *)

Section TurnCalculator.
Context {B : Type} `{GameBoard B}.

(** One pass of the loop body over [(total_turns, current_pos)]. *)
Definition turns_step (board : B) (st : Z * option coord) (action : pyobj)
  : Z * option coord :=
  let '(total_turns, current_pos) := st in
  match action with
  | Act (MOVE player next_pos) =>
      let current_pos :=
        match current_pos with
        | None => pawn_location board player
        | Some p => p
        end in
      let turns := get_move_turns board current_pos next_pos in
      (total_turns + turns, Some next_pos)
  | _ => (total_turns, current_pos)
  end.

Definition calculate_total_turns (board : B) (solution : pyvalue)
  : result xnum :=
  if negb (truthy solution) then Return PInf
  else match iterate solution with
       | None => Raise TypeError
       | Some actions =>
           Return (Fin (fst (fold_left (turns_step board) actions (0, None))))
       end.

(** The reading of the specification: the targets of the move actions, in
    order, and the costs of the hops between consecutive cursor
    positions. *)
Fixpoint move_targets (sol : list Action) : list coord :=
  match sol with
  | [] => []
  | MOVE _ p :: rest => p :: move_targets rest
  | OTHER _ :: rest => move_targets rest
  end.

Fixpoint first_mover (sol : list Action) : option player_id :=
  match sol with
  | [] => None
  | MOVE pl _ :: _ => Some pl
  | OTHER _ :: rest => first_mover rest
  end.

Fixpoint hop_costs (board : B) (cursor : coord) (targets : list coord)
  : list Z :=
  match targets with
  | [] => []
  | t :: ts => get_move_turns board cursor t :: hop_costs board t ts
  end.

Definition move_costs (board : B) (sol : list Action) : list Z :=
  match first_mover sol with
  | None => []
  | Some pl => hop_costs board (pawn_location board pl) (move_targets sol)
  end.

Definition sum_costs (cs : list Z) : Z := fold_right Z.add 0 cs.

End TurnCalculator.

(** ** Measurements *)

(** Modelled from the spec: [MEGABYTES] comes from the [util] module, which
    is not part of the sources; resident memory in bytes is converted to
    megabytes by dividing by 1,048,576. *)
Definition MEGABYTES : Z := 1048576.

Definition megabytes (bytes : Z) : Q := (inject_Z bytes / inject_Z MEGABYTES)%Q.

Definition Qltb (x y : Q) : bool :=
  match (x ?= y)%Q with
  | Lt => true
  | _ => false
  end.

(** [max(a, b)] keeps its first argument unless the second is larger. *)
Definition py_max (a b : Q) : Q := if Qltb a b then b else a.

(** [round(x)]: to the nearest integer, a tie going to the even one. *)
Definition py_round (x : Q) : Z :=
  let lo := Qfloor x in
  match (x - inject_Z lo ?= 1 # 2)%Q with
  | Lt => lo
  | Gt => lo + 1
  | Eq => if Z.even lo then lo else lo + 1
  end.

(** [round(x * 100) / 100], on the exact rational; the float product of
    the code may fall on the other side of a tie. *)
Definition round2 (x : Q) : Q := (inject_Z (py_round (x * 100)) / 100)%Q.

(** ** Performance records *)

(** The text stored in [Performance.failure]: a formatted traceback of a
    caught exception, or one of the two limit messages. *)
Inductive failure_text : Type :=
  | format_exc (e : exn)
  | TimeLimitExceeded (time_delta : Q)
  | MemoryLimitExceeded (memory_usage : Q).

(** Modelled from the spec: [Performance] comes from the [util] module,
    which is not part of the sources. It is the result record with an
    optional failure text, a numeric turn count or +infinity, a reserved
    search field, seconds, megabytes and an integer score. *)
Record Performance : Type := {
  failure : option failure_text;
  outcome : xnum;
  search : option unit;
  time : Q;
  memory : Q;
  point : Z
}.

Record Limits : Type := {
  HARD_TIME_LIMIT : Q;
  HARD_MEMORY_LIMIT : Q
}.

(** The values the module assigns to its two globals. *)
Definition default_limits : Limits :=
  {| HARD_TIME_LIMIT := 0; HARD_MEMORY_LIMIT := 0 |}.

(** ** Agents, the memory probe and the clock *)

(** An agent has a display name and a search entry point. A call on the
    prepared board returns a value or raises, and leaves the board's
    peak-memory counter ([get_max_memory_usage], in bytes) behind. *)
Record Agent (B : Type) : Type := {
  name : string;
  heuristic_search : B -> result pyvalue * Z
}.
Arguments name {B} _.
Arguments heuristic_search {B} _ _.

(** Two simple kinds of agent: one whose search returns the same value on
    every board, one whose search always raises. *)
Definition returning {B : Type} (nm : string) (v : pyvalue) (board_bytes : Z)
  : Agent B :=
  {| name := nm; heuristic_search := fun _ => (Return v, board_bytes) |}.

Definition raising {B : Type} (nm : string) (e : exn) (board_bytes : Z)
  : Agent B :=
  {| name := nm; heuristic_search := fun _ => (Raise e, board_bytes) |}.

(** What the process and the clock show during one agent's run: the
    resident size read before the run (a reading that is taken to
    succeed), the readings of the monitoring thread that land before the
    peak is consumed ([None] when the query raised), and the two readings
    of [time()]. *)
Record Probe : Type := {
  rss_initial : Z;
  rss_samples : list (option Z);
  time_start : Q;
  time_end : Q
}.

(** ** Resource monitor *)

Definition update_memory (peak_memory : Q) (sample : option Z) : Q :=
  match sample with
  | Some rss => py_max peak_memory (megabytes rss)
  | None => peak_memory
  end.

Definition memory_monitor (peak_memory : Q) (samples : list (option Z)) : Q :=
  fold_left update_memory samples peak_memory.

(** ** Search runner *)

(** What the main thread does to the monitor and the clock, in order. *)
Inductive event : Type :=
  | TimeStart
  | MonitorStart
  | SearchCall
  | StopSignal
  | MonitorJoin (timeout : Q)
  | TimeEnd.

Record Attempt : Type := {
  solution : pyvalue;
  raised : option exn;
  events : list event
}.

Definition not_a_list : string :=
  "Solution should be a LIST of actions. The current outcome is not a list.".
Definition not_actions : string :=
  "Solution should be a list of ACTIONs. It contains an element which is not an ACTION.".

Definition all_Action (v : pyvalue) : bool :=
  match iterate v with
  | Some l => forallb isinstance_Action l
  | None => false
  end.

(** How one pass of the agent loop ends: it falls through to the next
    pass, returns from the entry point, or raises. *)
Inductive flow (A : Type) : Type :=
  | Next (a : A)
  | ReturnEarly (p : Performance)
  | Raised (e : exn).
Arguments Next {A} a.
Arguments ReturnEarly {A} p.
Arguments Raised {A} e.

Section Harness.
Context {B : Type} `{GameBoard B}.
Variable limits : Limits.

(** The body of the [try] block: the state it leaves and the exception
    it ends with, if any. *)
Definition search_body (a : Agent B) (board : B) : Attempt :=
  let started := [MonitorStart; SearchCall] in
  match fst (heuristic_search a board) with
  | Raise e =>
      {| solution := PyNone; raised := Some e; events := started |}
  | Return v =>
      let joined := started ++ [StopSignal; MonitorJoin 1] in
      if negb (isinstance_list v)
      then {| solution := v; raised := Some (AssertionError not_a_list);
              events := joined |}
      else if negb (all_Action v)
      then {| solution := v; raised := Some (AssertionError not_actions);
              events := joined |}
      else {| solution := v; raised := None; events := joined |}
  end.

(** [try] / [except] / [finally], between the two clock readings. *)
Definition search_attempt (a : Agent B) (board : B)
  : pyvalue * option failure_text * list event :=
  let body := search_body a board in
  let failure :=
    match raised body with
    | Some e => Some (format_exc e)
    | None => None
    end in
  (solution body, failure,
   [TimeStart] ++ events body ++ [StopSignal] ++ [TimeEnd]).

(** ** Outcome validator *)

Definition is_rule_violation (e : exn) : bool :=
  match e with
  | InvalidMove | InvalidFence => true
  | _ => false
  end.

(** The guarded replay: the values of [total_turns] and [is_end] it
    reaches, and how it ends. *)
Definition replay_body (initial_state : B) (solution : pyvalue)
  : xnum * result bool :=
  match calculate_total_turns initial_state solution with
  | Raise e => (PInf, Raise e)
  | Return total_turns =>
      match iterate solution with
      | None => (total_turns, Raise TypeError)
      | Some actions =>
          match simulate_action initial_state actions with
          | Raise e => (total_turns, Raise e)
          | Return board => (total_turns, Return (is_game_end board))
          end
      end
  end.

(** Lines 131-140: [(is_end, total_turns, failure)] after the replay. *)
Definition validate (initial_state : B) (solution : pyvalue)
    (failure : option failure_text)
  : result (bool * xnum * option failure_text) :=
  if is_None solution then Return (false, PInf, failure)
  else
    match replay_body initial_state solution with
    | (total_turns, Return is_end) => Return (is_end, total_turns, failure)
    | (total_turns, Raise e) =>
        if is_rule_violation e
        then Return (false, total_turns, Some (format_exc e))
        else Raise e
    end.

(** ** One pass of the agent loop *)

Definition time_delta_of (pr : Probe) : Q :=
  round2 (time_end pr - time_start pr).

Definition memory_usage_of (a : Agent B) (pr : Probe) (board : B) : Q :=
  let initial_memory := megabytes (rss_initial pr) in
  let peak_memory := memory_monitor initial_memory (rss_samples pr) in
  let board_memory := megabytes (snd (heuristic_search a board)) in
  round2 (py_max board_memory (peak_memory - initial_memory)).

Definition time_exceeded (k : string) (time_delta : Q) : bool :=
  String.eqb k "agent" && Qltb (HARD_TIME_LIMIT limits) time_delta
    && Qltb 0 (HARD_TIME_LIMIT limits).

Definition memory_exceeded (k : string) (memory_usage : Q) : bool :=
  String.eqb k "agent" && Qltb (HARD_MEMORY_LIMIT limits) memory_usage
    && Qltb 0 (HARD_MEMORY_LIMIT limits).

Definition limit_performance (text : failure_text) (time_delta memory_usage : Q)
  : Performance :=
  {| failure := Some text; outcome := PInf; search := None;
     time := time_delta; memory := memory_usage; point := 1 |}.

Definition evaluate_agent (k : string) (a : Agent B) (pr : Probe)
    (initial_state : B) : flow Performance :=
  let '(solution, failure, _) := search_attempt a initial_state in
  let time_delta := time_delta_of pr in
  let memory_usage := memory_usage_of a pr initial_state in
  if time_exceeded k time_delta
  then ReturnEarly
         (limit_performance (TimeLimitExceeded time_delta) time_delta memory_usage)
  else if memory_exceeded k memory_usage
  then ReturnEarly
         (limit_performance (MemoryLimitExceeded memory_usage) time_delta
            memory_usage)
  else
    match validate initial_state solution failure with
    | Raise e => Raised e
    | Return (is_end, total_turns, failure) =>
        Next {| failure := failure;
                outcome := if negb (is_None solution) then total_turns else PInf;
                search := None;
                time := time_delta;
                memory := memory_usage;
                point := 1 + Z.b2z is_end |}
    end.

(** The loop [for k in ['ta', 'agent']]. *)
Fixpoint agent_loop (agents : gmap string (Agent B)) (probe : string -> Probe)
    (initial_state : B) (keys : list string)
    (results : gmap string Performance) : flow (gmap string Performance) :=
  match keys with
  | [] => Next results
  | k :: rest =>
      match agents !! k with
      | None => Raised (KeyError k)
      | Some a =>
          match evaluate_agent k a (probe k) initial_state with
          | Next perf =>
              agent_loop agents probe initial_state rest (<[k := perf]> results)
          | ReturnEarly p => ReturnEarly p
          | Raised e => Raised e
          end
      end
  end.

End Harness.

(** ** Scorer *)

Record Comparison : Type := {
  is_beating_ta_outcome : bool;
  is_beating_ta_time : bool;
  is_beating_ta_memory : bool
}.

Record Stages : Type := {
  is_basic_stage : bool;
  is_intermediate_stage : bool;
  is_advanced_stage : bool;
  is_challenge_stage : bool
}.

(** Lines 154-161. *)
Definition compare_with_ta (results : gmap string Performance) (res : Performance)
  : Comparison :=
  match results !! "ta" with
  | Some ta =>
      {| is_beating_ta_outcome :=
           (xnum_ge (outcome ta) (outcome res) && xnum_gt0 (outcome res))
           || (xnum_eqb (outcome ta) (outcome res)
               && xnum_eqb (outcome res) (Fin 0));
         is_beating_ta_time := Qle_bool (time res) (time ta);
         is_beating_ta_memory := Qle_bool (memory res) (memory ta) |}
  | None =>
      {| is_beating_ta_outcome := true;
         is_beating_ta_time := false;
         is_beating_ta_memory := false |}
  end.

Definition is_Some_text (f : option failure_text) : bool :=
  match f with Some _ => true | None => false end.

(** Lines 163-166. *)
Definition stages_of (res : Performance) (c : Comparison) : Stages :=
  let basic :=
    negb (is_Some_text (failure res)) && (1 <? point res)
      && is_beating_ta_outcome c in
  let intermediate := basic && Qle_bool (memory res) 1 in
  let advanced := intermediate && is_beating_ta_time c in
  let challenge := advanced && is_beating_ta_memory c in
  {| is_basic_stage := basic;
     is_intermediate_stage := intermediate;
     is_advanced_stage := advanced;
     is_challenge_stage := challenge |}.

Definition stage_points (s : Stages) : Z :=
  1 + Z.b2z (is_basic_stage s) + Z.b2z (is_intermediate_stage s)
    + Z.b2z (is_advanced_stage s) + Z.b2z (is_challenge_stage s).

(** Lines 152-175. *)
Definition score (results : gmap string Performance) : result Performance :=
  match results !! "agent" with
  | None => Raise (KeyError "agent")
  | Some res =>
      let s := stages_of res (compare_with_ta results res) in
      Return {| failure := failure res;
                outcome := outcome res;
                search := search res;
                time := time res;
                memory := memory res;
                point := stage_points s |}
  end.

(** ** The entry point *)

Section EntryPoint.
Context {B : Type} `{GameBoard B}.

(** [load_ta_agent] belongs to the [util] module; its answer, an agent
    or [None], is the argument [ta_agent]. [initial_state] is the board
    that [set_to_state(initial_state, is_initial=True)] builds. *)
Definition execute_heuristic_search (limits : Limits) (agent : Agent B)
    (ta_agent : option (Agent B)) (probe : string -> Probe)
    (initial_state : B) : result Performance :=
  let agents : gmap string (Agent B) := {[ "agent" := agent ]} in
  let agents :=
    match ta_agent with
    | Some ta => <[ "ta" := ta ]> agents
    | None => agents
    end in
  match agent_loop limits agents probe initial_state ["ta"; "agent"] ∅ with
  | Raised e => Raise e
  | ReturnEarly p => Return p
  | Next results => score results
  end.

End EntryPoint.

(** ** A concrete board and concrete agents

    A one-pawn board on a 9 x 9 grid, used to run the harness on explicit
    inputs. A move costs the Manhattan distance; a move off the grid is an
    illegal move; a fence with a tag of 10 or more is an illegal fence; an
    object that is not an Action makes the replay fail with another error.
    The game ends when the pawn stands on row 8. *)

Record Track : Type := { pawn : coord }.

Definition on_grid (p : coord) : bool :=
  (0 <=? fst p) && (fst p <=? 8) && (0 <=? snd p) && (snd p <=? 8).

Definition track_step (r : result Track) (o : pyobj) : result Track :=
  match r with
  | Raise e => Raise e
  | Return b =>
      match o with
      | Act (MOVE _ p) => if on_grid p then Return {| pawn := p |} else Raise InvalidMove
      | Act (OTHER tag) => if (tag <? 10)%nat then Return b else Raise InvalidFence
      | Junk _ => Raise (OtherError 1)
      end
  end.

#[global] Instance Track_board : GameBoard Track := {
  pawn_location b _ := pawn b;
  get_move_turns _ p q := Z.abs (fst q - fst p) + Z.abs (snd q - snd p);
  simulate_action b actions := fold_left track_step actions (Return b);
  is_game_end b := fst (pawn b) =? 8
}.

Definition start : Track := {| pawn := (4, 0) |}.

(** A four-move solution that reaches row 8 from [start]. *)
Definition winning_moves : list Action :=
  [MOVE "white" (4, 2); MOVE "white" (4, 4); OTHER 3; MOVE "white" (4, 6);
   MOVE "white" (8, 6)].

(** A run that takes [centis] hundredths of a second with a flat resident
    size. *)
Definition quiet_probe (centis : Z) : Probe :=
  {| rss_initial := 50 * MEGABYTES;
     rss_samples := [Some (50 * MEGABYTES); None; Some (50 * MEGABYTES)];
     time_start := 10;
     time_end := (10 + inject_Z centis / 100)%Q |}.

(** The candidate's own run of [winning_moves]: no failure, ten turns,
    goal reached, no time and no memory to speak of. *)
Definition winner : Agent Track := returning "winner" (PyList (map Act winning_moves)) 0.

Definition winner_run : Performance :=
  {| failure := None; outcome := Fin 10; search := None;
     time := 0 # 100; memory := 0 # 100; point := 2 |}.

(** A results dictionary without a reference entry. *)
Definition solo_results : gmap string Performance := {[ "agent" := winner_run ]}.

(** A candidate whose search raises, one that returns a tuple of valid
    actions, one that returns a number, one that returns a list holding an
    object that is not an Action. *)
Definition crasher : Agent Track := raising "crasher" (OtherError 7) 0.
Definition tuple_agent : Agent Track :=
  returning "tuple" (PyTuple (map Act winning_moves)) 0.
Definition int_agent : Agent Track := returning "int" (PyInt 5) 0.
Definition junk_agent : Agent Track := returning "junk" (PyList [Junk 0]) 0.

(** A candidate whose solution steps off the grid, and one that places an
    illegal fence. *)
Definition offgrid_agent : Agent Track :=
  returning "offgrid" (PyList [Act (MOVE "white" (4, 3)); Act (MOVE "white" (9, 3))]) 0.
Definition fence_agent : Agent Track :=
  returning "fence" (PyList [Act (MOVE "white" (4, 3)); Act (OTHER 12);
                             Act (MOVE "white" (8, 3))]) 0.

Definition five_seconds : Limits :=
  {| HARD_TIME_LIMIT := 5; HARD_MEMORY_LIMIT := 0 |}.

Definition quiet_probe_of (k : string) : Probe := quiet_probe 0.

(** The reference finishes at once; the candidate needs 7.2 seconds. *)
Definition slow_candidate_probe (k : string) : Probe :=
  if String.eqb k "agent" then quiet_probe 720 else quiet_probe 0.

(** ** What the turn calculator reads from a sequence of objects

    The targets of the elements that are MOVE actions, and the player of
    the first of them. *)

Fixpoint obj_targets (l : list pyobj) : list coord :=
  match l with
  | [] => []
  | Act (MOVE _ p) :: rest => p :: obj_targets rest
  | _ :: rest => obj_targets rest
  end.

Fixpoint obj_first_mover (l : list pyobj) : option player_id :=
  match l with
  | [] => None
  | Act (MOVE pl _) :: _ => Some pl
  | _ :: rest => obj_first_mover rest
  end.

Definition successful (sample : option Z) : bool :=
  match sample with Some _ => true | None => false end.

(** The failure text that the two shape assertions leave for a returned
    value. *)
Definition shape_failure (v : pyvalue) : option failure_text :=
  if isinstance_list v
  then if all_Action v then None
       else Some (format_exc (AssertionError not_actions))
  else Some (format_exc (AssertionError not_a_list)).

(** Reference and candidate with the same record. *)
Definition duel_results : gmap string Performance :=
  <[ "agent" := winner_run ]> (<[ "ta" := winner_run ]> ∅).

(** A reference that needed twelve turns and a candidate that claims a
    solution of zero turns. *)
Definition twelve_turns : Performance :=
  {| failure := None; outcome := Fin 12; search := None;
     time := 3 # 100; memory := 50 # 100; point := 2 |}.

Definition zero_turns : Performance :=
  {| failure := None; outcome := Fin 0; search := None;
     time := 0 # 100; memory := 0 # 100; point := 2 |}.

(** The final record of a candidate that matches an equal reference. *)
Definition winner_final : Performance :=
  {| failure := None; outcome := Fin 10; search := None;
     time := 0 # 100; memory := 0 # 100; point := 5 |}.

(** The final record of the candidate whose search raises. *)
Definition crasher_final : Performance :=
  {| failure := Some (format_exc (OtherError 7)); outcome := PInf; search := None;
     time := 0 # 100; memory := 0 # 100; point := 1 |}.

(** * Properties *)

(** ** Turn calculator *)

Section TurnCalculatorFacts.
Context {B : Type} `{GameBoard B}.

Lemma turns_step_non_move (board : B) (st : Z * option coord) (tag : nat) :
  turns_step board st (Act (OTHER tag)) = st.
Proof. destruct st as [total cursor]. reflexivity. Qed.

Lemma walk_from_cursor (board : B) (sol : list Action) :
  forall (total : Z) (cursor : coord),
    fst (fold_left (turns_step board) (map Act sol) (total, Some cursor))
    = total + sum_costs (hop_costs board cursor (move_targets sol)).
Proof.
  induction sol as [|a rest IH]; intros total cursor; simpl.
  - lia.
  - destruct a as [pl p | tag]; simpl.
    + rewrite IH. unfold sum_costs. simpl. lia.
    + apply IH.
Qed.

Lemma walk_from_start (board : B) (sol : list Action) :
  forall total : Z,
    fst (fold_left (turns_step board) (map Act sol) (total, None))
    = total + sum_costs (move_costs board sol).
Proof.
  induction sol as [|a rest IH]; intros total; simpl.
  - unfold move_costs, sum_costs. simpl. lia.
  - destruct a as [pl p | tag]; simpl.
    + rewrite walk_from_cursor. unfold move_costs, sum_costs. simpl. lia.
    + rewrite IH. reflexivity.
Qed.

Lemma hop_costs_length (board : B) (targets : list coord) :
  forall cursor, length (hop_costs board cursor targets) = length targets.
Proof.
  induction targets as [|t ts IH]; intros cursor; simpl; [reflexivity|].
  now rewrite IH.
Qed.

Lemma move_targets_length (sol : list Action) :
  length (move_targets sol)
  = length (List.filter isinstance_MOVE (map Act sol)).
Proof.
  induction sol as [|[pl p | tag] rest IH]; simpl; congruence.
Qed.

Lemma first_mover_None (sol : list Action) :
  first_mover sol = None -> move_targets sol = [].
Proof.
  induction sol as [|[pl p | tag] rest IH]; simpl; intros Hm;
    [reflexivity | discriminate | auto].
Qed.

(** C7. An absent or empty solution yields +infinity. A non-empty solution
    yields the sum of the board's turn costs of its move actions, one cost
    per move action, taken along the cursor that starts at the pawn of the
    first move's player and jumps to each move's target; a non-move action
    leaves both the running total and the cursor as they are. *)
Theorem C7_turn_calculator (board : B) (sol : list Action) :
  calculate_total_turns board PyNone = Return PInf
  /\ calculate_total_turns board (PyList (map Act sol))
     = Return (match sol with
               | [] => PInf
               | _ :: _ => Fin (sum_costs (move_costs board sol))
               end)
  /\ length (move_costs board sol)
     = length (List.filter isinstance_MOVE (map Act sol))
  /\ (forall pl p rest,
        move_costs board (MOVE pl p :: rest)
        = get_move_turns board (pawn_location board pl) p
            :: hop_costs board p (move_targets rest))
  /\ (forall tag rest, move_costs board (OTHER tag :: rest) = move_costs board rest)
  /\ (forall st tag, turns_step board st (Act (OTHER tag)) = st).
Proof.
  split; [reflexivity|]. split; [|split; [|split; [|split]]].
  - destruct sol as [|a rest]; [reflexivity|].
    unfold calculate_total_turns.
    change (truthy (PyList (map Act (a :: rest)))) with true.
    cbn [negb iterate].
    now rewrite walk_from_start.
  - unfold move_costs. destruct (first_mover sol) eqn:Hm.
    + rewrite hop_costs_length. apply move_targets_length.
    + rewrite <- move_targets_length, (first_mover_None _ Hm). reflexivity.
  - reflexivity.
  - reflexivity.
  - intros st tag. apply turns_step_non_move.
Qed.

End TurnCalculatorFacts.

Example winning_moves_turns :
  calculate_total_turns start (PyList (map Act winning_moves)) = Return (Fin 10).
Proof. reflexivity. Qed.

(** ** Resource monitor *)

Lemma Qltb_lt (x y : Q) : Qltb x y = true <-> (x < y)%Q.
Proof.
  unfold Qltb. rewrite Qlt_alt.
  destruct (x ?= y)%Q; split; intros Hc; congruence.
Qed.

Lemma Qltb_ge (x y : Q) : Qltb x y = false <-> (y <= x)%Q.
Proof.
  rewrite <- not_true_iff_false, Qltb_lt. split.
  - apply Qnot_lt_le.
  - apply Qle_not_lt.
Qed.

Lemma py_max_lower (a b : Q) : (a <= py_max a b)%Q.
Proof.
  unfold py_max. destruct (Qltb a b) eqn:Hlt.
  - apply Qlt_le_weak, Qltb_lt, Hlt.
  - apply Qle_refl.
Qed.

Lemma update_memory_lower (peak : Q) (sample : option Z) :
  (peak <= update_memory peak sample)%Q.
Proof.
  destruct sample as [rss|]; simpl; [apply py_max_lower | apply Qle_refl].
Qed.

Lemma memory_monitor_lower (samples : list (option Z)) :
  forall peak : Q, (peak <= memory_monitor peak samples)%Q.
Proof.
  unfold memory_monitor.
  induction samples as [|s rest IH]; intros peak; simpl.
  - apply Qle_refl.
  - eapply Qle_trans; [apply (update_memory_lower peak s) | apply IH].
Qed.

(** C9. The peak starts at the baseline read before the search call, each
    reading of the monitor replaces it by the maximum of the peak and the
    reading (a failed reading leaves it alone), so the peak the main thread
    consumes is at least the baseline and the difference peak - baseline is
    never negative. *)
Theorem C9_peak_at_least_baseline (pr : Probe) :
  let initial_memory := megabytes (rss_initial pr) in
  let peak_memory := memory_monitor initial_memory (rss_samples pr) in
  memory_monitor initial_memory [] = initial_memory
  /\ (forall peak rss,
        update_memory peak (Some rss) = py_max peak (megabytes rss)
        /\ update_memory peak None = peak
        /\ (peak <= update_memory peak (Some rss))%Q
        /\ (megabytes rss <= update_memory peak (Some rss))%Q)
  /\ (initial_memory <= peak_memory)%Q
  /\ (0 <= peak_memory - initial_memory)%Q.
Proof.
  intros initial_memory peak_memory.
  split; [reflexivity|]. split; [|split].
  - intros peak rss. repeat split.
    + apply py_max_lower.
    + simpl. unfold py_max. destruct (Qltb peak (megabytes rss)) eqn:Hlt.
      * apply Qle_refl.
      * apply Qltb_ge, Hlt.
  - apply memory_monitor_lower.
  - unfold Qminus. apply (proj1 (Qle_minus_iff _ _)), memory_monitor_lower.
Qed.

(** ** Scorer *)

Lemma stages_nested (res : Performance) (c : Comparison) :
  let s := stages_of res c in
  is_intermediate_stage s = is_basic_stage s && Qle_bool (memory res) 1
  /\ is_advanced_stage s = is_intermediate_stage s && is_beating_ta_time c
  /\ is_challenge_stage s = is_advanced_stage s && is_beating_ta_memory c.
Proof. repeat split. Qed.

(** C6. The final point is 1 plus the number of satisfied tiers; a tier is
    satisfied only when the one before it is, so the satisfied tiers form a
    prefix of Basic, Intermediate, Advanced, Challenge; the point lies
    between 1 and 5, and it reaches 2, 3, 4, 5 exactly when Basic,
    Intermediate, Advanced, Challenge is satisfied. *)
Theorem C6_point_counts_nested_tiers (results : gmap string Performance)
    (res : Performance) :
  let s := stages_of res (compare_with_ta results res) in
  (results !! "agent" = Some res ->
   exists p, score results = Return p /\ point p = stage_points s)
  /\ stage_points s
     = 1 + Z.of_nat (length (List.filter id
             [is_basic_stage s; is_intermediate_stage s;
              is_advanced_stage s; is_challenge_stage s]))
  /\ (is_intermediate_stage s = true -> is_basic_stage s = true)
  /\ (is_advanced_stage s = true -> is_intermediate_stage s = true)
  /\ (is_challenge_stage s = true -> is_advanced_stage s = true)
  /\ 1 <= stage_points s <= 5
  /\ (2 <= stage_points s <-> is_basic_stage s = true)
  /\ (3 <= stage_points s <-> is_intermediate_stage s = true)
  /\ (4 <= stage_points s <-> is_advanced_stage s = true)
  /\ (5 <= stage_points s <-> is_challenge_stage s = true).
Proof.
  intros s. split.
  { intros Hres. unfold score. rewrite Hres. eexists. split; reflexivity. }
  destruct (stages_nested res (compare_with_ta results res)) as (Hi & Ha & Hc).
  fold s in Hi, Ha, Hc. unfold stage_points.
  rewrite Hc, Ha, Hi.
  destruct (is_basic_stage s), (Qle_bool (memory res) 1),
    (is_beating_ta_time (compare_with_ta results res)),
    (is_beating_ta_memory (compare_with_ta results res));
    cbn; repeat split; intros; try lia; try congruence.
Qed.

Example winner_run_evaluated :
  evaluate_agent default_limits "agent" winner (quiet_probe 0) start = Next winner_run.
Proof. vm_compute. reflexivity. Qed.

(** ** Search runner *)

Section SearchRunnerFacts.
Context {B : Type} `{GameBoard B}.

(** C3, evaluated on the code. When the search call returns, the main
    thread signals the monitor and joins it with the 1-second timeout
    before the clock is read again. When the search call raises, the only
    thing that happens before the clock is read is the stop signal of the
    [finally] clause: the monitor is never joined. *)
Theorem C3_join_only_when_search_returns (a : Agent B) (board : B) :
  let evs := snd (search_attempt a board) in
  match fst (heuristic_search a board) with
  | Return _ =>
      evs = [TimeStart; MonitorStart; SearchCall; StopSignal; MonitorJoin 1;
             StopSignal; TimeEnd]
  | Raise _ =>
      evs = [TimeStart; MonitorStart; SearchCall; StopSignal; TimeEnd]
      /\ ~ In (MonitorJoin 1) evs
  end.
Proof.
  unfold search_attempt, search_body.
  destruct (fst (heuristic_search a board)) as [v | e]; cbn.
  - destruct (isinstance_list v); cbn; [destruct (all_Action v)|]; reflexivity.
  - split; [reflexivity|]. cbn. intros Hin.
    repeat (destruct Hin as [Hin | Hin]; [discriminate Hin|]). exact Hin.
Qed.

(** The part of the search-failure rule that the code follows: an error
    raised by the search call is captured, the solution stays absent, the
    outcome is +infinity and the point of the run is 1. *)
Lemma search_error_captured (limits : Limits) (k : string) (a : Agent B)
    (pr : Probe) (board : B) (e : exn) :
  fst (heuristic_search a board) = Raise e ->
  time_exceeded limits k (time_delta_of pr) = false ->
  memory_exceeded limits k (memory_usage_of a pr board) = false ->
  evaluate_agent limits k a pr board
  = Next {| failure := Some (format_exc e); outcome := PInf; search := None;
            time := time_delta_of pr; memory := memory_usage_of a pr board;
            point := 1 |}.
Proof.
  intros Hs Ht Hm. unfold evaluate_agent, search_attempt, search_body.
  rewrite Hs. cbn. rewrite Ht, Hm. reflexivity.
Qed.

(** C8, evaluated on the code. A list that holds an object which is not an
    Action fails the shape check, and the failure text is captured, but the
    solution variable keeps the list: the list is replayed, and the run
    either ends with the finite outcome 0 or lets the replay's error
    escape. *)
Theorem C8_rejected_shape_is_still_replayed (limits : Limits) (k nm : string)
    (n : nat) (bytes : Z) (pr : Probe) (board : B) :
  let a : Agent B := returning nm (PyList [Junk n]) bytes in
  fst (search_attempt a board)
  = (PyList [Junk n], Some (format_exc (AssertionError not_actions)))
  /\ match evaluate_agent limits k a pr board with
     | Next perf =>
         outcome perf = Fin 0 /\ outcome perf <> PInf /\ failure perf <> None
     | Raised e =>
         simulate_action board [Junk n] = Raise e /\ is_rule_violation e = false
     | ReturnEarly p =>
         time_exceeded limits k (time_delta_of pr) = true
         \/ memory_exceeded limits k (memory_usage_of a pr board) = true
     end.
Proof.
  intros a. split; [reflexivity|].
  unfold evaluate_agent. cbn.
  destruct (time_exceeded limits k (time_delta_of pr)) eqn:Ht; [now left|].
  destruct (memory_exceeded limits k (memory_usage_of a pr board)) eqn:Hm;
    [now right|].
  unfold validate, replay_body. cbn.
  destruct (simulate_action board [Junk n]) as [b' | e] eqn:Hsim; cbn.
  - repeat split; discriminate.
  - destruct (is_rule_violation e) eqn:Hr; cbn.
    + repeat split; discriminate.
    + split; [reflexivity | exact Hr].
Qed.

End SearchRunnerFacts.

(** The same defect on the concrete board: a tuple of valid actions is
    rejected by the shape check and still scored as a run that reached the
    goal in ten turns; a number makes the entry point raise. *)
Example tuple_is_replayed :
  evaluate_agent default_limits "agent" tuple_agent (quiet_probe 0) start
  = Next {| failure := Some (format_exc (AssertionError not_a_list));
            outcome := Fin 10; search := None;
            time := 0 # 100; memory := 0 # 100; point := 2 |}.
Proof. vm_compute. reflexivity. Qed.

Example junk_list_escapes :
  evaluate_agent default_limits "agent" junk_agent (quiet_probe 0) start
  = Raised (OtherError 1).
Proof. vm_compute. reflexivity. Qed.

Example crasher_is_not_joined :
  snd (search_attempt crasher start)
  = [TimeStart; MonitorStart; SearchCall; StopSignal; TimeEnd].
Proof. reflexivity. Qed.

Example offgrid_move_is_caught :
  evaluate_agent default_limits "agent" offgrid_agent (quiet_probe 0) start
  = Next {| failure := Some (format_exc InvalidMove); outcome := Fin 8;
            search := None; time := 0 # 100; memory := 0 # 100; point := 1 |}.
Proof. vm_compute. reflexivity. Qed.

Example number_escapes :
  execute_heuristic_search default_limits int_agent (Some winner) quiet_probe_of start
  = Raise TypeError.
Proof. vm_compute. reflexivity. Qed.

(** ** The entry point *)

Section EntryPointFacts.
Context {B : Type} `{GameBoard B}.

Lemma score_of_failed_run (results : gmap string Performance)
    (perf : Performance) (text : failure_text) :
  results !! "agent" = Some perf ->
  failure perf = Some text ->
  score results
  = Return {| failure := Some text; outcome := outcome perf;
              search := search perf; time := time perf;
              memory := memory perf; point := 1 |}.
Proof.
  intros Hag Hf. unfold score. rewrite Hag.
  unfold stage_points, stages_of. rewrite Hf. reflexivity.
Qed.

(** With a reference agent whose pass falls through, the entry point is
    the candidate's pass followed by the scorer. *)
Lemma entry_point_with_reference (limits : Limits) (agent ta : Agent B)
    (probe : string -> Probe) (board : B) (perf_ta : Performance) :
  evaluate_agent limits "ta" ta (probe "ta") board = Next perf_ta ->
  execute_heuristic_search limits agent (Some ta) probe board
  = match evaluate_agent limits "agent" agent (probe "agent") board with
    | Next perf => score (<["agent" := perf]> (<["ta" := perf_ta]> ∅))
    | ReturnEarly p => Return p
    | Raised e => Raise e
    end.
Proof.
  intros Hta. unfold execute_heuristic_search. cbn [agent_loop].
  rewrite lookup_insert_eq, Hta.
  rewrite lookup_insert_ne by discriminate.
  rewrite lookup_singleton_eq.
  destruct (evaluate_agent limits "agent" agent (probe "agent") board);
    reflexivity.
Qed.

(** C1, evaluated on the code. When no reference agent is available the
    dictionary of agents has no entry under 'ta', the loop asks for that
    entry first, and the entry point ends with a KeyError instead of a
    Performance, whatever the candidate does. *)
Theorem C1_no_reference_raises_KeyError (limits : Limits) (agent : Agent B)
    (probe : string -> Probe) (initial_state : B) :
  execute_heuristic_search limits agent None probe initial_state
  = Raise (KeyError "ta")
  /\ ~ (exists p, execute_heuristic_search limits agent None probe initial_state
                  = Return p).
Proof.
  assert (Hrun : execute_heuristic_search limits agent None probe initial_state
                 = Raise (KeyError "ta")).
  { unfold execute_heuristic_search. cbn [agent_loop].
    rewrite lookup_singleton_ne by discriminate. reflexivity. }
  split; [exact Hrun|]. intros (p & Hp). rewrite Hrun in Hp. discriminate Hp.
Qed.

Lemma time_exceeded_iff (limits : Limits) (k : string) (td : Q) :
  time_exceeded limits k td = true
  <-> k = "agent" /\ (0 < HARD_TIME_LIMIT limits /\ HARD_TIME_LIMIT limits < td)%Q.
Proof.
  unfold time_exceeded. rewrite !andb_true_iff, !Qltb_lt, String.eqb_eq. tauto.
Qed.

Lemma memory_exceeded_iff (limits : Limits) (k : string) (mu : Q) :
  memory_exceeded limits k mu = true
  <-> k = "agent"
      /\ (0 < HARD_MEMORY_LIMIT limits /\ HARD_MEMORY_LIMIT limits < mu)%Q.
Proof.
  unfold memory_exceeded. rewrite !andb_true_iff, !Qltb_lt, String.eqb_eq. tauto.
Qed.

Lemma evaluate_agent_cases (limits : Limits) (k : string) (a : Agent B)
    (pr : Probe) (board : B) :
  let td := time_delta_of pr in
  let mu := memory_usage_of a pr board in
  (time_exceeded limits k td = true
   /\ evaluate_agent limits k a pr board
      = ReturnEarly (limit_performance (TimeLimitExceeded td) td mu))
  \/ (time_exceeded limits k td = false /\ memory_exceeded limits k mu = true
      /\ evaluate_agent limits k a pr board
         = ReturnEarly (limit_performance (MemoryLimitExceeded mu) td mu))
  \/ (time_exceeded limits k td = false /\ memory_exceeded limits k mu = false
      /\ forall p, evaluate_agent limits k a pr board <> ReturnEarly p).
Proof.
  intros td mu. unfold evaluate_agent.
  destruct (search_attempt a board) as [[sol fl] evs].
  fold td mu.
  destruct (time_exceeded limits k td) eqn:Ht; [left; auto|].
  destruct (memory_exceeded limits k mu) eqn:Hm; [right; left; auto|].
  right; right. repeat split.
  intros p. destruct (validate board sol fl) as [[[is_end tt] fl'] | e];
    discriminate.
Qed.

(** C4. A pass of the loop returns from the entry point exactly when it is
    the candidate's pass and a positive limit is exceeded by the rounded
    time or memory; what it returns carries the limit message (the time
    message first), outcome +infinity and point 1, and the entry point
    hands that record back without replay or scoring. A limit of zero or
    less never fires. *)
Theorem C4_limit_short_circuit (limits : Limits) (k : string) (a : Agent B)
    (pr : Probe) (board : B) :
  let td := time_delta_of pr in
  let mu := memory_usage_of a pr board in
  let over_time :=
    (0 < HARD_TIME_LIMIT limits /\ HARD_TIME_LIMIT limits < td)%Q in
  let over_memory :=
    (0 < HARD_MEMORY_LIMIT limits /\ HARD_MEMORY_LIMIT limits < mu)%Q in
  ((exists p, evaluate_agent limits k a pr board = ReturnEarly p)
   <-> k = "agent" /\ (over_time \/ over_memory))
  /\ (k = "agent" -> over_time ->
      evaluate_agent limits k a pr board
      = ReturnEarly (limit_performance (TimeLimitExceeded td) td mu))
  /\ (k = "agent" -> ~ over_time -> over_memory ->
      evaluate_agent limits k a pr board
      = ReturnEarly (limit_performance (MemoryLimitExceeded mu) td mu))
  /\ (forall p, evaluate_agent limits k a pr board = ReturnEarly p ->
      outcome p = PInf /\ point p = 1 /\ time p = td /\ memory p = mu
      /\ (failure p = Some (TimeLimitExceeded td)
          \/ failure p = Some (MemoryLimitExceeded mu)))
  /\ ((HARD_TIME_LIMIT limits <= 0)%Q -> (HARD_MEMORY_LIMIT limits <= 0)%Q ->
      forall p, evaluate_agent limits k a pr board <> ReturnEarly p)
  /\ (forall (ta : Agent B) (probe : string -> Probe) perf_ta p,
      k = "agent" -> pr = probe "agent" ->
      evaluate_agent limits "ta" ta (probe "ta") board = Next perf_ta ->
      evaluate_agent limits k a pr board = ReturnEarly p ->
      execute_heuristic_search limits a (Some ta) probe board = Return p).
Proof.
  intros td mu over_time over_memory.
  pose proof (evaluate_agent_cases limits k a pr board) as Hcases.
  pose proof (time_exceeded_iff limits k td) as Ht.
  pose proof (memory_exceeded_iff limits k mu) as Hm.
  cbn zeta in Hcases. fold td mu in Hcases.
  assert (Hnt : time_exceeded limits k td = false
                -> ~ (k = "agent" /\ over_time)).
  { intros Hf Hc. apply Ht in Hc. congruence. }
  assert (Hnm : memory_exceeded limits k mu = false
                -> ~ (k = "agent" /\ over_memory)).
  { intros Hf Hc. apply Hm in Hc. congruence. }
  subst over_time over_memory. cbn beta in Hnt, Hnm.
  split; [split|].
  { intros (p & Hp).
    destruct Hcases as [(Hc & _) | [(_ & Hc & _) | (_ & _ & Hc)]].
    - apply Ht in Hc. tauto.
    - apply Hm in Hc. tauto.
    - now apply Hc in Hp. }
  { intros (Hk & Hover).
    destruct Hcases as [(_ & He) | [(_ & _ & He) | (Hc1 & Hc2 & _)]];
      [eauto | eauto |].
    apply Hnt in Hc1. apply Hnm in Hc2. tauto. }
  split.
  { intros Hk Hover.
    destruct Hcases as [(_ & He) | [(Hc & _) | (Hc & _)]];
      [exact He | |]; apply Hnt in Hc; tauto. }
  split.
  { intros Hk Hnover Hover.
    destruct Hcases as [(Hc & _) | [(_ & _ & He) | (_ & Hc & _)]];
      [apply Ht in Hc; tauto | exact He | apply Hnm in Hc; tauto]. }
  split.
  { intros p Hp.
    destruct Hcases as [(_ & He) | [(_ & _ & He) | (_ & _ & Hc)]];
      [| | now apply Hc in Hp]; rewrite He in Hp; inversion Hp; cbn; auto 6. }
  split.
  { intros Hnt0 Hnm0 p Hp.
    destruct Hcases as [(Hc & _) | [(_ & Hc & _) | (_ & _ & Hc)]].
    - apply Ht in Hc. destruct Hc as (_ & Hpos & _).
      apply Qlt_not_le in Hpos. tauto.
    - apply Hm in Hc. destruct Hc as (_ & Hpos & _).
      apply Qlt_not_le in Hpos. tauto.
    - now apply Hc in Hp. }
  intros ta probe perf_ta p Hk Hpr Hta Hp. subst k pr.
  rewrite (entry_point_with_reference limits a ta probe board perf_ta)
    by assumption.
  rewrite Hp. reflexivity.
Qed.

Lemma limit_beats_validation (limits : Limits) (a : Agent B) (pr : Probe)
    (board : B) :
  let td := time_delta_of pr in
  let mu := memory_usage_of a pr board in
  (0 < HARD_TIME_LIMIT limits /\ HARD_TIME_LIMIT limits < td)%Q
  \/ (0 < HARD_MEMORY_LIMIT limits /\ HARD_MEMORY_LIMIT limits < mu)%Q ->
  exists text,
    evaluate_agent limits "agent" a pr board
    = ReturnEarly (limit_performance text td mu)
    /\ (text = TimeLimitExceeded td \/ text = MemoryLimitExceeded mu).
Proof.
  intros td mu Hover.
  pose proof (evaluate_agent_cases limits "agent" a pr board) as Hcases.
  cbn zeta in Hcases. fold td mu in Hcases.
  destruct Hcases as [(_ & He) | [(_ & _ & He) | (Hc1 & Hc2 & _)]];
    [eauto | eauto |].
  apply not_true_iff_false in Hc1, Hc2.
  rewrite time_exceeded_iff in Hc1. rewrite memory_exceeded_iff in Hc2. tauto.
Qed.

(** C10. When the candidate's search raises and a positive limit is
    exceeded in the same run, the traceback is captured first, and the
    record that the entry point returns carries the limit message in its
    place, together with the measured time and memory. *)
Theorem C10_limit_message_replaces_traceback (limits : Limits)
    (agent ta : Agent B) (probe : string -> Probe) (board : B) (e : exn)
    (perf_ta : Performance) :
  let td := time_delta_of (probe "agent") in
  let mu := memory_usage_of agent (probe "agent") board in
  fst (heuristic_search agent board) = Raise e ->
  evaluate_agent limits "ta" ta (probe "ta") board = Next perf_ta ->
  (0 < HARD_TIME_LIMIT limits /\ HARD_TIME_LIMIT limits < td)%Q
  \/ (0 < HARD_MEMORY_LIMIT limits /\ HARD_MEMORY_LIMIT limits < mu)%Q ->
  snd (fst (search_attempt agent board)) = Some (format_exc e)
  /\ exists text,
       execute_heuristic_search limits agent (Some ta) probe board
       = Return {| failure := Some text; outcome := PInf; search := None;
                   time := td; memory := mu; point := 1 |}
       /\ (text = TimeLimitExceeded td \/ text = MemoryLimitExceeded mu)
       /\ text <> format_exc e.
Proof.
  intros td mu Hs Hta Hover. split.
  - unfold search_attempt, search_body. rewrite Hs. reflexivity.
  - destruct (limit_beats_validation limits agent (probe "agent") board Hover)
      as (text & He & Htext).
    exists text. split; [|split; [exact Htext|]].
    + rewrite (entry_point_with_reference limits agent ta probe board perf_ta)
        by assumption.
      rewrite He. reflexivity.
    + destruct Htext as [-> | ->]; discriminate.
Qed.

(** C5. When the replay of a produced solution raises an illegal-move or
    illegal-fence error, the error is caught and becomes the failure text;
    the outcome is the value the turn calculator returned before the
    replay (a finite number for a non-empty solution); the point of the run
    is 1, and so is the final point, since the failure is not None. *)
Theorem C5_rule_violation_keeps_turn_count (limits : Limits)
    (agent ta : Agent B) (probe : string -> Probe) (board : B) (v : pyvalue)
    (actions : list pyobj) (e : exn) (perf_ta : Performance) :
  let td := time_delta_of (probe "agent") in
  let mu := memory_usage_of agent (probe "agent") board in
  let total_turns :=
    match actions with
    | [] => PInf
    | _ :: _ => Fin (fst (fold_left (turns_step board) actions (0, None)))
    end in
  fst (heuristic_search agent board) = Return v ->
  iterate v = Some actions ->
  simulate_action board actions = Raise e ->
  e = InvalidMove \/ e = InvalidFence ->
  time_exceeded limits "agent" td = false ->
  memory_exceeded limits "agent" mu = false ->
  evaluate_agent limits "ta" ta (probe "ta") board = Next perf_ta ->
  calculate_total_turns board v = Return total_turns
  /\ evaluate_agent limits "agent" agent (probe "agent") board
     = Next {| failure := Some (format_exc e); outcome := total_turns;
               search := None; time := td; memory := mu; point := 1 |}
  /\ execute_heuristic_search limits agent (Some ta) probe board
     = Return {| failure := Some (format_exc e); outcome := total_turns;
                 search := None; time := td; memory := mu; point := 1 |}.
Proof.
  intros td mu total_turns Hs Hit Hsim He Ht Hm Hta.
  assert (Hcalc : calculate_total_turns board v = Return total_turns).
  { unfold calculate_total_turns. rewrite Hit.
    destruct v as [|l|l|z]; try discriminate Hit;
      injection Hit as ->; subst total_turns; destruct actions; reflexivity. }
  assert (Hnone : is_None v = false).
  { destruct v; try reflexivity; discriminate Hit. }
  assert (Hviol : is_rule_violation e = true).
  { destruct He as [-> | ->]; reflexivity. }
  assert (Hrun : evaluate_agent limits "agent" agent (probe "agent") board
     = Next {| failure := Some (format_exc e); outcome := total_turns;
               search := None; time := td; memory := mu; point := 1 |}).
  { unfold evaluate_agent, search_attempt, search_body. rewrite Hs.
    destruct (negb (isinstance_list v)); [|destruct (negb (all_Action v))];
      cbn -[time_exceeded memory_exceeded validate];
      fold td mu; rewrite Ht, Hm; unfold validate, replay_body;
      rewrite Hnone, Hcalc, Hit, Hsim, Hviol; reflexivity. }
  split; [exact Hcalc|]. split; [exact Hrun|].
  rewrite (entry_point_with_reference limits agent ta probe board perf_ta)
    by assumption.
  rewrite Hrun.
  match goal with
  | |- score (<["agent" := ?perf]> ?m) = _ =>
      exact (score_of_failed_run (<["agent" := perf]> m) perf (format_exc e)
               (lookup_insert_eq _ _ _) eq_refl)
  end.
Qed.

End EntryPointFacts.

Lemma C4_limit_short_circuit_witness :
  evaluate_agent five_seconds "agent" winner (quiet_probe 720) start
  = ReturnEarly (limit_performance (TimeLimitExceeded (720 # 100)) (720 # 100)
                   (0 # 100)).
Proof.
  destruct (C4_limit_short_circuit five_seconds "agent" winner (quiet_probe 720)
              start) as (_ & Htime & _).
  apply Htime; [reflexivity | split; reflexivity].
Defined.

Lemma C10_limit_message_replaces_traceback_witness :
  execute_heuristic_search five_seconds crasher (Some winner)
    slow_candidate_probe start
  = Return {| failure := Some (TimeLimitExceeded (720 # 100)); outcome := PInf;
              search := None; time := 720 # 100; memory := 0 # 100; point := 1 |}.
Proof.
  destruct (C10_limit_message_replaces_traceback five_seconds crasher winner
              slow_candidate_probe start (OtherError 7) winner_run)
    as (_ & text & Hrun & [Htext | Htext] & _).
  - reflexivity.
  - vm_compute. reflexivity.
  - left. split; reflexivity.
  - rewrite Hrun, Htext. reflexivity.
  - exfalso. rewrite Htext in Hrun. vm_compute in Hrun. discriminate Hrun.
Defined.

Lemma C5_rule_violation_keeps_turn_count_witness :
  execute_heuristic_search default_limits fence_agent (Some winner)
    quiet_probe_of start
  = Return {| failure := Some (format_exc InvalidFence); outcome := Fin 7;
              search := None; time := 0 # 100; memory := 0 # 100; point := 1 |}.
Proof.
  destruct (C5_rule_violation_keeps_turn_count default_limits fence_agent winner
              quiet_probe_of start
              (PyList [Act (MOVE "white" (4, 3)); Act (OTHER 12);
                       Act (MOVE "white" (8, 3))])
              [Act (MOVE "white" (4, 3)); Act (OTHER 12);
               Act (MOVE "white" (8, 3))]
              InvalidFence winner_run) as (_ & _ & Hrun).
  - reflexivity.
  - reflexivity.
  - reflexivity.
  - right. reflexivity.
  - reflexivity.
  - reflexivity.
  - vm_compute. reflexivity.
  - exact Hrun.
Defined.

Lemma C6_point_counts_nested_tiers_witness :
  exists p, score solo_results = Return p /\ point p = 3.
Proof.
  destruct (C6_point_counts_nested_tiers solo_results winner_run) as (Hp & _).
  destruct Hp as (p & Hs & Hpt); [reflexivity|].
  exists p. split; [exact Hs|]. rewrite Hpt. reflexivity.
Defined.

(** * Further properties of the harness *)

(** ** Turn calculator on arbitrary returned values *)

Section TurnCalculatorMore.
Context {B : Type} `{GameBoard B}.

Lemma objs_from_cursor (board : B) (l : list pyobj) :
  forall (total : Z) (cursor : coord),
    fst (fold_left (turns_step board) l (total, Some cursor))
    = total + sum_costs (hop_costs board cursor (obj_targets l)).
Proof.
  induction l as [|o rest IH]; intros total cursor; simpl.
  - unfold sum_costs. simpl. lia.
  - destruct o as [[pl p | tag] | n]; simpl.
    + rewrite IH. unfold sum_costs. simpl. lia.
    + apply IH.
    + apply IH.
Qed.

Lemma objs_from_start (board : B) (l : list pyobj) :
  forall total : Z,
    fst (fold_left (turns_step board) l (total, None))
    = total
      + match obj_first_mover l with
        | None => 0
        | Some pl =>
            sum_costs (hop_costs board (pawn_location board pl) (obj_targets l))
        end.
Proof.
  induction l as [|o rest IH]; intros total; simpl.
  - lia.
  - destruct o as [[pl p | tag] | n]; simpl.
    + rewrite objs_from_cursor. unfold sum_costs. simpl. lia.
    + apply IH.
    + apply IH.
Qed.

Lemma calculate_on_iterable (board : B) (v : pyvalue) (l : list pyobj) :
  iterate v = Some l ->
  calculate_total_turns board v
  = Return (match l with
            | [] => PInf
            | _ :: _ =>
                Fin (match obj_first_mover l with
                     | None => 0
                     | Some pl =>
                         sum_costs (hop_costs board (pawn_location board pl)
                                      (obj_targets l))
                     end)
            end).
Proof.
  intros Hit. unfold calculate_total_turns. rewrite Hit.
  destruct v as [|l'|l'|z]; try discriminate Hit; injection Hit as ->;
    (destruct l as [|o rest]; [reflexivity|]);
    cbn [truthy length Nat.eqb negb]; rewrite objs_from_start; f_equal.
Qed.

(** X2. Two non-empty sequences get the same total as soon as their MOVE
    elements have the same targets in the same order and their first
    movers stand on the same square: the kind of sequence (list or tuple),
    the elements that are not MOVE actions (other actions and objects that
    are no actions at all) and the players of the later moves play no
    part. *)
Theorem turn_total_depends_on_targets_only (board : B) (v1 v2 : pyvalue)
    (l1 l2 : list pyobj) :
  iterate v1 = Some l1 ->
  iterate v2 = Some l2 ->
  l1 <> [] ->
  l2 <> [] ->
  obj_targets l1 = obj_targets l2 ->
  option_map (pawn_location board) (obj_first_mover l1)
  = option_map (pawn_location board) (obj_first_mover l2) ->
  calculate_total_turns board v1 = calculate_total_turns board v2.
Proof.
  intros H1 H2 Hn1 Hn2 Ht Hp.
  rewrite (calculate_on_iterable board v1 l1 H1),
          (calculate_on_iterable board v2 l2 H2).
  destruct l1 as [|o1 r1]; [contradiction|].
  destruct l2 as [|o2 r2]; [contradiction|].
  rewrite Ht.
  destruct (obj_first_mover (o1 :: r1)), (obj_first_mover (o2 :: r2));
    cbn in Hp; try discriminate Hp; [|reflexivity].
  injection Hp as ->. reflexivity.
Qed.

Lemma walk_never_decreases (board : B) (l : list pyobj) :
  (forall p q, 0 <= get_move_turns board p q) ->
  forall st, fst st <= fst (fold_left (turns_step board) l st).
Proof.
  intros Hpos. induction l as [|o rest IH]; intros [total cursor]; simpl.
  - lia.
  - destruct o as [[pl p | tag] | n]; simpl.
    + eapply Z.le_trans; [|apply IH]. simpl.
      specialize (Hpos (match cursor with
                        | Some c => c
                        | None => pawn_location board pl
                        end) p). lia.
    + apply (IH (total, cursor)).
    + apply (IH (total, cursor)).
Qed.

(** X3. On a board whose move costs are never negative, the total of a
    non-empty solution is not negative and appending further actions to it
    never lowers the total. *)
Theorem turn_total_grows_with_solution (board : B) (l more : list pyobj)
    (n m : Z) :
  (forall p q, 0 <= get_move_turns board p q) ->
  calculate_total_turns board (PyList l) = Return (Fin n) ->
  calculate_total_turns board (PyList (l ++ more)) = Return (Fin m) ->
  0 <= n <= m.
Proof.
  intros Hpos Hn Hm. unfold calculate_total_turns in Hn, Hm.
  destruct l as [|o rest]; [discriminate Hn|].
  cbn [truthy length Nat.eqb negb iterate app] in Hn, Hm.
  injection Hn as <-. injection Hm as <-.
  change (o :: rest ++ more) with ((o :: rest) ++ more).
  rewrite fold_left_app. split.
  - apply (walk_never_decreases board (o :: rest) Hpos (0, None)).
  - apply (walk_never_decreases board more Hpos).
Qed.

End TurnCalculatorMore.

Lemma turn_total_depends_on_targets_only_witness :
  calculate_total_turns start
    (PyTuple [Junk 3; Act (MOVE "white" (4, 2)); Act (MOVE "black" (8, 2))])
  = calculate_total_turns start
      (PyList [Act (MOVE "black" (4, 2)); Act (OTHER 1); Act (MOVE "black" (8, 2))]).
Proof.
  apply (turn_total_depends_on_targets_only start _ _
           [Junk 3; Act (MOVE "white" (4, 2)); Act (MOVE "black" (8, 2))]
           [Act (MOVE "black" (4, 2)); Act (OTHER 1); Act (MOVE "black" (8, 2))]);
    try reflexivity; discriminate.
Defined.

Lemma turn_total_grows_with_solution_witness : 0 <= 2 <= 6.
Proof.
  apply (turn_total_grows_with_solution start
           [Act (MOVE "white" (4, 2))] [Act (OTHER 1); Act (MOVE "white" (8, 2))]
           2 6).
  - intros p q. cbn. lia.
  - reflexivity.
  - reflexivity.
Defined.

(** ** Resource monitor and measurements *)

Lemma py_max_upper (a b : Q) : (b <= py_max a b)%Q.
Proof.
  unfold py_max. destruct (Qltb a b) eqn:Hlt.
  - apply Qle_refl.
  - apply Qltb_ge, Hlt.
Qed.

(** X4. Every reading that the monitor obtained is at most the peak it
    leaves behind. *)
Theorem monitor_peak_bounds_every_reading (peak : Q)
    (samples : list (option Z)) (rss : Z) :
  In (Some rss) samples ->
  (megabytes rss <= memory_monitor peak samples)%Q.
Proof.
  unfold memory_monitor. revert peak.
  induction samples as [|s rest IH]; intros peak Hin; [destruct Hin|].
  destruct Hin as [-> | Hin]; simpl.
  - eapply Qle_trans; [apply (py_max_upper peak) | apply memory_monitor_lower].
  - apply IH, Hin.
Qed.

Lemma monitor_peak_bounds_every_reading_witness :
  (megabytes (70 * MEGABYTES)%Z
   <= memory_monitor (megabytes (50 * MEGABYTES)%Z)
        [Some (60 * MEGABYTES)%Z; None; Some (70 * MEGABYTES)%Z;
         Some (55 * MEGABYTES)%Z])%Q.
Proof.
  apply monitor_peak_bounds_every_reading. right. right. left. reflexivity.
Defined.

(** X5. The peak is the starting value or one of the readings, and the
    readings that failed do not matter: dropping them from the run gives
    the same peak. *)
Theorem monitor_peak_is_attained (samples : list (option Z)) (peak : Q) :
  (memory_monitor peak samples = peak
   \/ exists rss, In (Some rss) samples
                  /\ memory_monitor peak samples = megabytes rss)
  /\ memory_monitor peak samples
     = memory_monitor peak (List.filter successful samples).
Proof.
  unfold memory_monitor. revert peak.
  induction samples as [|s rest IH]; intros peak; [split; [now left | reflexivity]|].
  destruct s as [rss|]; simpl.
  - destruct (IH (py_max peak (megabytes rss))) as ([Hp | (r & Hin & Hr)] & Hf).
    + split; [|exact Hf]. rewrite Hp.
      destruct (py_max peak (megabytes rss)) eqn:Hm.
      unfold py_max in Hm. destruct (Qltb peak (megabytes rss)).
      * right. exists rss. split; [now left | now rewrite Hm].
      * left. now rewrite Hm.
    + split; [|exact Hf]. right. exists r. split; [now right | exact Hr].
  - destruct (IH peak) as ([Hp | (r & Hin & Hr)] & Hf).
    + split; [now left | exact Hf].
    + split; [|exact Hf]. right. exists r. split; [now right | exact Hr].
Qed.

Lemma py_round_above_floor (y : Q) : (Qfloor y <= py_round y <= Qfloor y + 1)%Z.
Proof.
  unfold py_round.
  destruct (y - inject_Z (Qfloor y) ?= 1 # 2)%Q;
    [destruct (Z.even (Qfloor y))| |]; lia.
Qed.

Lemma py_round_monotone (x y : Q) : (x <= y)%Q -> (py_round x <= py_round y)%Z.
Proof.
  intros Hxy. pose proof (Qfloor_resp_le x y Hxy) as Hfl.
  pose proof (py_round_above_floor x) as Hx.
  pose proof (py_round_above_floor y) as Hy.
  destruct (Z.eq_dec (Qfloor x) (Qfloor y)) as [Heq | Hne]; [|lia].
  unfold py_round. rewrite <- Heq.
  destruct (x - inject_Z (Qfloor x) ?= 1 # 2)%Q eqn:Hcx;
    destruct (y - inject_Z (Qfloor x) ?= 1 # 2)%Q eqn:Hcy;
    try (destruct (Z.even (Qfloor x))); try lia; exfalso;
    repeat match goal with
           | Hc : (_ ?= _)%Q = Eq |- _ => apply Qeq_alt in Hc
           | Hc : (_ ?= _)%Q = Lt |- _ => apply Qlt_alt in Hc
           | Hc : (_ ?= _)%Q = Gt |- _ => apply Qgt_alt in Hc
           end; lra.
Qed.

Lemma round2_monotone (x y : Q) : (x <= y)%Q -> (round2 x <= round2 y)%Q.
Proof.
  intros Hxy. unfold round2.
  assert (Hr : (py_round (x * 100) <= py_round (y * 100))%Z)
    by (apply py_round_monotone; lra).
  rewrite Zle_Qle in Hr. unfold Qdiv. change (/ 100)%Q with (1 # 100)%Q. lra.
Qed.

Section MemoryUsageFacts.
Context {B : Type} `{GameBoard B}.

(** X7. The reported memory is never negative, whatever the board counter
    and the process readings are; it is at least the rounded figure of the
    board and at least the rounded growth of the process over the
    baseline. *)
Theorem reported_memory_has_two_floors (a : Agent B) (pr : Probe) (board : B) :
  let initial_memory := megabytes (rss_initial pr) in
  let peak_memory := memory_monitor initial_memory (rss_samples pr) in
  (0 <= memory_usage_of a pr board)%Q
  /\ (round2 (megabytes (snd (heuristic_search a board)))
      <= memory_usage_of a pr board)%Q
  /\ (round2 (peak_memory - initial_memory) <= memory_usage_of a pr board)%Q.
Proof.
  intros initial_memory peak_memory. unfold memory_usage_of.
  fold initial_memory. fold peak_memory.
  assert (Hgrow : (0 <= peak_memory - initial_memory)%Q).
  { pose proof (memory_monitor_lower (rss_samples pr) initial_memory) as Hl.
    fold peak_memory in Hl. lra. }
  pose proof (py_max_upper (megabytes (snd (heuristic_search a board)))
                (peak_memory - initial_memory)) as Hup.
  pose proof (py_max_lower (megabytes (snd (heuristic_search a board)))
                (peak_memory - initial_memory)) as Hlow.
  split; [|split].
  - apply Qle_trans with (round2 0); [vm_compute; discriminate|].
    apply round2_monotone. lra.
  - apply round2_monotone, Hlow.
  - apply round2_monotone, Hup.
Qed.

End MemoryUsageFacts.

(** ** Search runner and outcome validator *)

Lemma all_Action_list (l : list pyobj) :
  forallb isinstance_Action l = true -> exists sol, l = map Act sol.
Proof.
  induction l as [|o rest IH]; intros Hall.
  - exists []. reflexivity.
  - cbn in Hall. apply andb_true_iff in Hall as (Ho & Hrest).
    destruct (IH Hrest) as (sol & ->).
    destruct o as [a | n]; [|discriminate Ho].
    exists (a :: sol). reflexivity.
Qed.

Lemma shape_failure_None (v : pyvalue) :
  shape_failure v = None <-> exists sol, v = PyList (map Act sol).
Proof.
  unfold shape_failure. split.
  - destruct v as [|l|l|z]; cbn; try discriminate.
    destruct (forallb isinstance_Action l) eqn:Hall; [|discriminate].
    intros _. destruct (all_Action_list l Hall) as (sol & ->). now exists sol.
  - intros (sol & ->). cbn.
    replace (forallb isinstance_Action (map Act sol)) with true; [reflexivity|].
    symmetry. apply forallb_forall. intros o Hin.
    apply in_map_iff in Hin as (a & <- & _). reflexivity.
Qed.

Section SearchRunnerMore.
Context {B : Type} `{GameBoard B}.

Lemma search_attempt_returned (a : Agent B) (board : B) (v : pyvalue) :
  fst (heuristic_search a board) = Return v ->
  fst (search_attempt a board) = (v, shape_failure v).
Proof.
  intros Hs. unfold search_attempt, search_body, shape_failure. rewrite Hs.
  destruct (isinstance_list v); cbn; [destruct (all_Action v)|]; reflexivity.
Qed.

Lemma search_attempt_raised (a : Agent B) (board : B) (e : exn) :
  fst (heuristic_search a board) = Raise e ->
  fst (search_attempt a board) = (PyNone, Some (format_exc e)).
Proof.
  intros Hs. unfold search_attempt, search_body. rewrite Hs. reflexivity.
Qed.

(** X8. The search attempt ends without a failure text exactly when the
    search call returned a list whose elements are all actions (the empty
    list included); the solution is then that list. *)
Theorem shape_check_accepts_lists_of_actions (a : Agent B) (board : B) :
  snd (fst (search_attempt a board)) = None
  <-> exists sol,
        fst (heuristic_search a board) = Return (PyList (map Act sol))
        /\ fst (fst (search_attempt a board)) = PyList (map Act sol).
Proof.
  destruct (fst (heuristic_search a board)) as [v | e] eqn:Hs.
  - rewrite (search_attempt_returned a board v Hs). cbn. split.
    + intros Hnone. apply shape_failure_None in Hnone as (sol & ->).
      exists sol. split; reflexivity.
    + intros (sol & Hv & _). injection Hv as ->.
      apply shape_failure_None. now exists sol.
  - rewrite (search_attempt_raised a board e Hs). cbn. split.
    + discriminate.
    + intros (sol & Hv & _). discriminate Hv.
Qed.

(** What a pass that falls through has recorded. *)
Lemma evaluate_agent_Next_inv (limits : Limits) (k : string) (a : Agent B)
    (pr : Probe) (board : B) (perf : Performance) :
  evaluate_agent limits k a pr board = Next perf ->
  time perf = time_delta_of pr
  /\ memory perf = memory_usage_of a pr board
  /\ search perf = None
  /\ match fst (heuristic_search a board) with
     | Raise e =>
         failure perf = Some (format_exc e) /\ outcome perf = PInf
         /\ point perf = 1
     | Return v =>
         if is_None v
         then failure perf = shape_failure v /\ outcome perf = PInf
              /\ point perf = 1
         else exists actions,
             iterate v = Some actions
             /\ calculate_total_turns board v = Return (outcome perf)
             /\ match simulate_action board actions with
                | Return board' =>
                    failure perf = shape_failure v
                    /\ point perf = 1 + Z.b2z (is_game_end board')
                | Raise e =>
                    is_rule_violation e = true
                    /\ failure perf = Some (format_exc e) /\ point perf = 1
                end
     end.
Proof.
  unfold evaluate_agent.
  destruct (search_attempt a board) as [[sol fl] evs] eqn:Hatt.
  assert (Hfst : fst (search_attempt a board) = (sol, fl)) by now rewrite Hatt.
  destruct (time_exceeded limits k (time_delta_of pr)); [discriminate|].
  destruct (memory_exceeded limits k (memory_usage_of a pr board));
    [discriminate|].
  destruct (validate board sol fl) as [[[is_end tt] fl'] | e] eqn:Hval;
    [|discriminate].
  intros Hnext. injection Hnext as <-. cbn [time memory search failure outcome point].
  repeat (split; [reflexivity|]).
  destruct (fst (heuristic_search a board)) as [v | e] eqn:Hs.
  - rewrite (search_attempt_returned a board v Hs) in Hfst.
    injection Hfst as <- <-. unfold validate in Hval.
    destruct (is_None v) eqn:Hnone.
    + injection Hval as <- <- <-. cbn. auto.
    + cbn [negb]. unfold replay_body in Hval.
      destruct (calculate_total_turns board v) as [t | e] eqn:Hcalc.
      * destruct (iterate v) as [actions|] eqn:Hit.
        -- exists actions. split; [reflexivity|].
           destruct (simulate_action board actions) as [board' | e] eqn:Hsim.
           ++ injection Hval as <- <- <-. auto.
           ++ destruct (is_rule_violation e) eqn:Hviol; [|discriminate Hval].
              injection Hval as <- <- <-. auto.
        -- cbn in Hval. discriminate Hval.
      * unfold calculate_total_turns in Hcalc.
        destruct (negb (truthy v)); [discriminate Hcalc|].
        destruct (iterate v); [discriminate Hcalc|].
        injection Hcalc as <-. cbn in Hval. discriminate Hval.
  - rewrite (search_attempt_raised a board e Hs) in Hfst.
    injection Hfst as <- <-. cbn in Hval. injection Hval as <- <- <-.
    cbn. auto.
Qed.

End SearchRunnerMore.

(** ** Scorer *)

Lemma stage_points_spec (res : Performance) (c : Comparison) :
  let sp := stage_points (stages_of res c) in
  1 <= sp <= 5
  /\ (2 <= sp ->
      failure res = None /\ 1 < point res /\ is_beating_ta_outcome c = true)
  /\ (3 <= sp -> Qle_bool (memory res) 1 = true)
  /\ (4 <= sp -> is_beating_ta_time c = true)
  /\ (5 <= sp -> is_beating_ta_memory c = true)
  /\ (failure res = None -> 1 < point res -> is_beating_ta_outcome c = true ->
      Qle_bool (memory res) 1 = true -> is_beating_ta_time c = true ->
      is_beating_ta_memory c = true -> sp = 5).
Proof.
  unfold stage_points, stages_of. cbn.
  destruct (failure res) as [text|]; cbn;
    destruct (Z.ltb_spec 1 (point res)); cbn;
    destruct (is_beating_ta_outcome c), (Qle_bool (memory res) 1),
      (is_beating_ta_time c), (is_beating_ta_memory c); cbn;
    repeat split; intros; try lia; try congruence.
Qed.

Lemma score_inv (results : gmap string Performance) (p : Performance) :
  score results = Return p ->
  exists res,
    results !! "agent" = Some res
    /\ failure p = failure res /\ outcome p = outcome res
    /\ search p = search res /\ time p = time res /\ memory p = memory res
    /\ point p = stage_points (stages_of res (compare_with_ta results res)).
Proof.
  unfold score. destruct (results !! "agent") as [res|]; [|discriminate].
  intros Hp. injection Hp as <-. exists res. repeat split.
Qed.

Lemma compare_inv (results : gmap string Performance) (res : Performance) :
  let c := compare_with_ta results res in
  (is_beating_ta_time c = true ->
   exists ta, results !! "ta" = Some ta /\ (time res <= time ta)%Q)
  /\ (is_beating_ta_memory c = true ->
      exists ta, results !! "ta" = Some ta /\ (memory res <= memory ta)%Q)
  /\ (is_beating_ta_outcome c = true ->
      forall ta, results !! "ta" = Some ta ->
        xnum_ge (outcome ta) (outcome res) = true
        /\ xnum_ge (outcome res) (Fin 0) = true).
Proof.
  unfold compare_with_ta. destruct (results !! "ta") as [ta|]; cbn.
  - split; [|split].
    + intros Ht. exists ta. split; [reflexivity | now apply Qle_bool_iff].
    + intros Hm. exists ta. split; [reflexivity | now apply Qle_bool_iff].
    + intros Ho ta' Hta. injection Hta as <-.
      destruct (outcome ta) as [y|], (outcome res) as [x|]; cbn in *;
        try discriminate; try (split; reflexivity).
      * apply orb_true_iff in Ho as [Ho | Ho];
          apply andb_true_iff in Ho as (H1 & H2).
        -- split; [exact H1|]. apply Z.leb_le. apply Z.ltb_lt in H2. lia.
        -- apply Z.eqb_eq in H1, H2. subst. split; reflexivity.
      * rewrite orb_false_r in Ho. split; [reflexivity|].
        apply Z.leb_le. apply Z.ltb_lt in Ho. lia.
  - split; [discriminate|]. split; [discriminate|]. intros _ ta Hta.
    discriminate Hta.
Qed.

(** X10. What a final point guarantees. With 2 or more the candidate's
    record has no failure and, when there is a reference run, its outcome
    is not negative and not above the reference's; with 3 or more its
    memory is at most 1 MB; with 4 or more there is a reference run and
    the candidate was not slower; with 5 it did not use more memory than
    the reference either. *)
Theorem point_levels_are_guarantees (results : gmap string Performance)
    (p : Performance) :
  score results = Return p ->
  1 <= point p <= 5
  /\ (2 <= point p ->
      failure p = None
      /\ forall ta, results !! "ta" = Some ta ->
           xnum_ge (outcome ta) (outcome p) = true
           /\ xnum_ge (outcome p) (Fin 0) = true)
  /\ (3 <= point p -> (memory p <= 1)%Q)
  /\ (4 <= point p ->
      exists ta, results !! "ta" = Some ta /\ (time p <= time ta)%Q)
  /\ (5 <= point p ->
      exists ta, results !! "ta" = Some ta /\ (memory p <= memory ta)%Q).
Proof.
  intros Hs.
  destruct (score_inv results p Hs) as (res & Hag & Hf & Ho & _ & Ht & Hm & Hp).
  destruct (stage_points_spec res (compare_with_ta results res))
    as (Hrange & H2 & H3 & H4 & H5 & _).
  destruct (compare_inv results res) as (Ct & Cm & Co).
  rewrite Hp, Hf, Ho, Ht, Hm.
  split; [exact Hrange|]. split; [|split; [|split]].
  - intros Hge. destruct (H2 Hge) as (Hnone & _ & Hout).
    split; [exact Hnone | exact (Co Hout)].
  - intros Hge. apply Qle_bool_iff, H3, Hge.
  - intros Hge. apply Ct, H4, Hge.
  - intros Hge. apply Cm, H5, Hge.
Qed.

Lemma point_levels_are_guarantees_witness :
  exists ta, duel_results !! "ta" = Some ta /\ (memory winner_run <= memory ta)%Q.
Proof.
  destruct (point_levels_are_guarantees duel_results
              {| failure := None; outcome := Fin 10; search := None;
                 time := 0 # 100; memory := 0 # 100; point := 5 |})
    as (_ & _ & _ & _ & H5).
  - reflexivity.
  - apply H5. cbn. lia.
Defined.

(** X11. How the outcome test reads when there is a reference run. A
    candidate outcome of +infinity passes only against a reference outcome
    of +infinity; a positive outcome passes when it is at most the
    reference's; an outcome of zero passes only against a reference outcome
    of zero; a negative outcome never passes. *)
Theorem outcome_test_cases (results : gmap string Performance)
    (res ta : Performance) :
  results !! "ta" = Some ta ->
  is_beating_ta_outcome (compare_with_ta results res) = true
  <-> match outcome res, outcome ta with
      | PInf, PInf => True
      | PInf, Fin _ => False
      | Fin x, PInf => 0 < x
      | Fin x, Fin y => 0 < x <= y \/ (x = 0 /\ y = 0)
      end.
Proof.
  intros Hta. unfold compare_with_ta. rewrite Hta. cbn.
  destruct (outcome res) as [x|], (outcome ta) as [y|]; cbn.
  - rewrite orb_true_iff, !andb_true_iff, Z.leb_le, Z.ltb_lt, !Z.eqb_eq. lia.
  - rewrite orb_false_r, Z.ltb_lt. reflexivity.
  - split; [discriminate | contradiction].
  - split; auto.
Qed.

Lemma outcome_test_cases_witness :
  is_beating_ta_outcome
    (compare_with_ta (<[ "agent" := zero_turns ]> (<[ "ta" := twelve_turns ]> ∅))
       zero_turns) = true
  <-> (0 < 0 <= 12 \/ (0 = 0 /\ 12 = 0)).
Proof.
  apply (outcome_test_cases
           (<[ "agent" := zero_turns ]> (<[ "ta" := twelve_turns ]> ∅))
           zero_turns twelve_turns).
  reflexivity.
Defined.

(** X12. A reference run that took longer and used more memory, with the
    same outcome, never lowers the candidate's point. *)
Theorem weaker_reference_never_costs_points
    (results1 results2 : gmap string Performance)
    (res ta1 ta2 p1 p2 : Performance) :
  results1 !! "agent" = Some res ->
  results2 !! "agent" = Some res ->
  results1 !! "ta" = Some ta1 ->
  results2 !! "ta" = Some ta2 ->
  outcome ta1 = outcome ta2 ->
  (time ta1 <= time ta2)%Q ->
  (memory ta1 <= memory ta2)%Q ->
  score results1 = Return p1 ->
  score results2 = Return p2 ->
  point p1 <= point p2.
Proof.
  intros Ha1 Ha2 Ht1 Ht2 Ho Htime Hmem Hs1 Hs2.
  unfold score in Hs1, Hs2. rewrite Ha1 in Hs1. rewrite Ha2 in Hs2.
  injection Hs1 as <-. injection Hs2 as <-. cbn [point].
  unfold compare_with_ta. rewrite Ht1, Ht2, Ho.
  unfold stage_points, stages_of. cbn.
  assert (Ct : Qle_bool (time res) (time ta1) = true
               -> Qle_bool (time res) (time ta2) = true).
  { rewrite !Qle_bool_iff. intros Hle. eapply Qle_trans; eassumption. }
  assert (Cm : Qle_bool (memory res) (memory ta1) = true
               -> Qle_bool (memory res) (memory ta2) = true).
  { rewrite !Qle_bool_iff. intros Hle. eapply Qle_trans; eassumption. }
  destruct (Qle_bool (time res) (time ta1));
    destruct (Qle_bool (memory res) (memory ta1));
    try rewrite (Ct eq_refl); try rewrite (Cm eq_refl);
    repeat match goal with
           | |- context [Z.b2z ?b] => destruct b; cbn
           end; lia.
Qed.

Lemma weaker_reference_never_costs_points_witness : 3 <= 5.
Proof.
  apply (weaker_reference_never_costs_points
           (<[ "agent" := twelve_turns ]>
              (<[ "ta" := {| failure := None; outcome := Fin 12; search := None;
                             time := 1 # 100; memory := 50 # 100; point := 2 |} ]> ∅))
           (<[ "agent" := twelve_turns ]> (<[ "ta" := twelve_turns ]> ∅))
           twelve_turns
           {| failure := None; outcome := Fin 12; search := None;
              time := 1 # 100; memory := 50 # 100; point := 2 |}
           twelve_turns
           {| failure := None; outcome := Fin 12; search := None;
              time := 3 # 100; memory := 50 # 100; point := 3 |}
           {| failure := None; outcome := Fin 12; search := None;
              time := 3 # 100; memory := 50 # 100; point := 5 |});
    try reflexivity; discriminate.
Defined.

(** ** The entry point as a whole *)

Section EntryPointMore.
Context {B : Type} `{GameBoard B}.

Lemma reference_pass_never_returns (limits : Limits) (a : Agent B) (pr : Probe)
    (board : B) (p : Performance) :
  evaluate_agent limits "ta" a pr board <> ReturnEarly p.
Proof.
  destruct (evaluate_agent_cases limits "ta" a pr board)
    as [(Hc & _) | [(_ & Hc & _) | (_ & _ & Hc)]].
  - apply time_exceeded_iff in Hc as (Hk & _). discriminate Hk.
  - apply memory_exceeded_iff in Hc as (Hk & _). discriminate Hk.
  - apply Hc.
Qed.

(** The ways through the entry point. *)
Lemma entry_point_cases (limits : Limits) (agent : Agent B)
    (ta_agent : option (Agent B)) (probe : string -> Probe) (board : B) :
  let run := execute_heuristic_search limits agent ta_agent probe board in
  (ta_agent = None /\ run = Raise (KeyError "ta"))
  \/ (exists ta e,
        ta_agent = Some ta
        /\ evaluate_agent limits "ta" ta (probe "ta") board = Raised e
        /\ run = Raise e)
  \/ (exists ta perf_ta,
        ta_agent = Some ta
        /\ evaluate_agent limits "ta" ta (probe "ta") board = Next perf_ta
        /\ ((exists e,
               evaluate_agent limits "agent" agent (probe "agent") board = Raised e
               /\ run = Raise e)
            \/ (exists p,
                  evaluate_agent limits "agent" agent (probe "agent") board
                  = ReturnEarly p
                  /\ run = Return p)
            \/ (exists perf,
                  evaluate_agent limits "agent" agent (probe "agent") board
                  = Next perf
                  /\ run = score (<["agent" := perf]> (<["ta" := perf_ta]> ∅))))).
Proof.
  intros run. destruct ta_agent as [ta|].
  - destruct (evaluate_agent limits "ta" ta (probe "ta") board)
      as [perf_ta | p | e] eqn:Hta.
    + right; right. exists ta, perf_ta. split; [reflexivity|].
      split; [exact Hta|]. subst run.
      rewrite (entry_point_with_reference limits agent ta probe board perf_ta Hta).
      destruct (evaluate_agent limits "agent" agent (probe "agent") board)
        as [perf | p | e]; eauto 6.
    + now apply reference_pass_never_returns in Hta.
    + right; left. exists ta, e. split; [reflexivity|]. split; [exact Hta|].
      subst run. unfold execute_heuristic_search. cbn [agent_loop].
      rewrite lookup_insert_eq, Hta. reflexivity.
  - left. split; [reflexivity|]. subst run.
    unfold execute_heuristic_search. cbn [agent_loop].
    rewrite lookup_singleton_ne by discriminate. reflexivity.
Qed.

Lemma entry_point_Return_inv (limits : Limits) (agent : Agent B)
    (ta_agent : option (Agent B)) (probe : string -> Probe) (board : B)
    (p : Performance) :
  execute_heuristic_search limits agent ta_agent probe board = Return p ->
  (evaluate_agent limits "agent" agent (probe "agent") board = ReturnEarly p)
  \/ exists perf results,
       evaluate_agent limits "agent" agent (probe "agent") board = Next perf
       /\ results !! "agent" = Some perf
       /\ score results = Return p.
Proof.
  intros Hrun.
  destruct (entry_point_cases limits agent ta_agent probe board)
    as [(_ & Hr) | [(ta & e & _ & _ & Hr)
                   | (ta & perf_ta & _ & _ &
                      [(e & _ & Hr) | [(q & Hq & Hr) | (perf & Hperf & Hr)]])]];
    cbn zeta in Hr; rewrite Hr in Hrun; try discriminate Hrun.
  - injection Hrun as ->. now left.
  - right. exists perf, (<["agent" := perf]> (<["ta" := perf_ta]> ∅)).
    split; [exact Hperf|]. split; [apply lookup_insert_eq | exact Hrun].
Qed.

(** X13. Whatever way the entry point returns, the record carries the
    candidate's measured time and memory, an empty search field and a
    point between 1 and 5. *)
Theorem returned_record_is_well_formed (limits : Limits) (agent : Agent B)
    (ta_agent : option (Agent B)) (probe : string -> Probe) (board : B)
    (p : Performance) :
  execute_heuristic_search limits agent ta_agent probe board = Return p ->
  time p = time_delta_of (probe "agent")
  /\ memory p = memory_usage_of agent (probe "agent") board
  /\ search p = None
  /\ 1 <= point p <= 5.
Proof.
  intros Hrun.
  destruct (entry_point_Return_inv limits agent ta_agent probe board p Hrun)
    as [Hearly | (perf & results & Hperf & Hag & Hs)].
  - destruct (evaluate_agent_cases limits "agent" agent (probe "agent") board)
      as [(_ & He) | [(_ & _ & He) | (_ & _ & Hc)]];
      [| |now apply Hc in Hearly];
      rewrite He in Hearly; injection Hearly as <-; cbn; repeat split; lia.
  - destruct (evaluate_agent_Next_inv limits "agent" agent (probe "agent")
                board perf Hperf) as (Ht & Hm & Hse & _).
    destruct (score_inv results p Hs) as (res & Hag' & _ & _ & Qs & Qt & Qm & Qp).
    rewrite Hag in Hag'. injection Hag' as <-.
    rewrite Qs, Qt, Qm, Qp.
    repeat split; try assumption;
      apply (stage_points_spec perf (compare_with_ta results perf)).
Qed.

(** X14. Points above 1 are earned: when the entry point returns 2 or
    more, the record has no failure, the candidate's search returned a list
    of actions, the replay of that list from the initial state went through
    and ended in a terminal state, and the outcome is what the turn
    calculator returned for that list. *)
Theorem points_above_one_are_earned (limits : Limits) (agent : Agent B)
    (ta_agent : option (Agent B)) (probe : string -> Probe) (board : B)
    (p : Performance) :
  execute_heuristic_search limits agent ta_agent probe board = Return p ->
  2 <= point p ->
  failure p = None
  /\ exists sol board',
       fst (heuristic_search agent board) = Return (PyList (map Act sol))
       /\ simulate_action board (map Act sol) = Return board'
       /\ is_game_end board' = true
       /\ calculate_total_turns board (PyList (map Act sol))
          = Return (outcome p).
Proof.
  intros Hrun Hge.
  destruct (entry_point_Return_inv limits agent ta_agent probe board p Hrun)
    as [Hearly | (perf & results & Hperf & Hag & Hs)].
  - exfalso.
    destruct (evaluate_agent_cases limits "agent" agent (probe "agent") board)
      as [(_ & He) | [(_ & _ & He) | (_ & _ & Hc)]];
      [| |now apply Hc in Hearly];
      rewrite He in Hearly; injection Hearly as <-; cbn in Hge; lia.
  - destruct (score_inv results p Hs) as (res & Hag' & Qf & Qo & _ & _ & _ & Qp).
    rewrite Hag in Hag'. injection Hag' as <-.
    rewrite Qp in Hge.
    destruct (stage_points_spec perf (compare_with_ta results perf))
      as (_ & H2 & _).
    destruct (H2 Hge) as (Hnone & Hpt & _).
    rewrite Qf, Qo. split; [exact Hnone|].
    destruct (evaluate_agent_Next_inv limits "agent" agent (probe "agent")
                board perf Hperf) as (_ & _ & _ & Hshape).
    destruct (fst (heuristic_search agent board)) as [v | e].
    + destruct (is_None v).
      * destruct Hshape as (_ & _ & Hone). lia.
      * destruct Hshape as (actions & Hit & Hcalc & Hsim).
        destruct (simulate_action board actions) as [board' | e] eqn:Hrep.
        -- destruct Hsim as (Hfail & Hone). rewrite Hnone in Hfail.
           symmetry in Hfail. apply shape_failure_None in Hfail as (sol & ->).
           injection Hit as <-. exists sol, board'.
           split; [reflexivity|]. split; [exact Hrep|].
           split; [|exact Hcalc].
           destruct (is_game_end board'); [reflexivity | cbn in Hone; lia].
        -- destruct Hsim as (_ & _ & Hone). lia.
    + destruct Hshape as (Hfail & _). congruence.
Qed.

(** X15. When the candidate's search returns a list or a tuple and the
    entry point returns, an empty sequence gives the outcome +infinity, and
    a finite outcome is the result of the turn calculator for the sequence,
    which is then not empty. *)
Theorem empty_sequence_has_infinite_outcome (limits : Limits) (agent : Agent B)
    (ta_agent : option (Agent B)) (probe : string -> Probe) (board : B)
    (p : Performance) (v : pyvalue) (actions : list pyobj) :
  fst (heuristic_search agent board) = Return v ->
  iterate v = Some actions ->
  execute_heuristic_search limits agent ta_agent probe board = Return p ->
  (actions = [] -> outcome p = PInf)
  /\ (forall n, outcome p = Fin n ->
       actions <> [] /\ calculate_total_turns board v = Return (Fin n)).
Proof.
  intros Hsearch Hit Hrun.
  assert (Hfin : forall n, outcome p = Fin n ->
                 actions <> [] /\ calculate_total_turns board v = Return (Fin n)).
  { intros n Hn.
    destruct (entry_point_Return_inv limits agent ta_agent probe board p Hrun)
      as [Hearly | (perf & results & Hperf & Hag & Hs)].
    - exfalso.
      destruct (evaluate_agent_cases limits "agent" agent (probe "agent") board)
        as [(_ & He) | [(_ & _ & He) | (_ & _ & Hc)]];
        [| |now apply Hc in Hearly];
        rewrite He in Hearly; injection Hearly as <-; discriminate Hn.
    - destruct (score_inv results p Hs) as (res & Hag' & _ & Qo & _).
      rewrite Hag in Hag'. injection Hag' as <-. rewrite Qo in Hn.
      destruct (evaluate_agent_Next_inv limits "agent" agent (probe "agent")
                  board perf Hperf) as (_ & _ & _ & Hshape).
      rewrite Hsearch in Hshape. destruct (is_None v).
      + destruct Hshape as (_ & Hinf & _). congruence.
      + destruct Hshape as (actions' & Hit' & Hcalc & _).
        rewrite Hn in Hcalc. split; [|exact Hcalc].
        intros ->. rewrite (calculate_on_iterable board v [] Hit) in Hcalc.
        discriminate Hcalc. }
  split; [|exact Hfin].
  intros Hempty. destruct (outcome p) as [n|] eqn:Ho; [|reflexivity].
  destruct (Hfin n eq_refl) as (Hne & _). contradiction.
Qed.

(** X16. When the candidate's search raises and the entry point returns,
    the record has a failure text, outcome +infinity and point 1. *)
Theorem raising_search_ends_with_one_point (limits : Limits) (agent : Agent B)
    (ta_agent : option (Agent B)) (probe : string -> Probe) (board : B)
    (p : Performance) (e : exn) :
  fst (heuristic_search agent board) = Raise e ->
  execute_heuristic_search limits agent ta_agent probe board = Return p ->
  failure p <> None /\ outcome p = PInf /\ point p = 1.
Proof.
  intros Hs Hrun.
  destruct (entry_point_Return_inv limits agent ta_agent probe board p Hrun)
    as [Hearly | (perf & results & Hperf & Hag & Hsc)].
  - destruct (evaluate_agent_cases limits "agent" agent (probe "agent") board)
      as [(_ & He) | [(_ & _ & He) | (_ & _ & Hc)]];
      [| |now apply Hc in Hearly];
      rewrite He in Hearly; injection Hearly as <-; cbn;
      repeat split; discriminate.
  - destruct (evaluate_agent_Next_inv limits "agent" agent (probe "agent")
                board perf Hperf) as (_ & _ & _ & Hshape).
    rewrite Hs in Hshape. destruct Hshape as (Hf & Ho & _).
    rewrite (score_of_failed_run results perf (format_exc e) Hag Hf) in Hsc.
    injection Hsc as <-. cbn. repeat split; [discriminate | exact Ho].
Qed.

(** C2, evaluated on the code. Without a reference agent no tier is ever
    computed: the entry point returns no record, so no candidate gets 2
    points or more, let alone 5. The scorer is reached only with a
    reference entry in the results: every dictionary that the agent loop
    hands on holds a record under 'ta', so the values that the three
    comparisons are given before the test for a reference entry never
    decide a tier. *)
Theorem C2_no_tiers_without_reference (limits : Limits) (agent : Agent B)
    (probe : string -> Probe) (board : B) :
  ~ (exists p,
       execute_heuristic_search limits agent None probe board = Return p
       /\ 2 <= point p)
  /\ (forall (agents : gmap string (Agent B))
        (results : gmap string Performance),
        agent_loop limits agents probe board ["ta"; "agent"] ∅ = Next results ->
        exists ta perf_ta,
          agents !! "ta" = Some ta /\ results !! "ta" = Some perf_ta
          /\ evaluate_agent limits "ta" ta (probe "ta") board = Next perf_ta)
  /\ (forall (ta_agent : option (Agent B)) (p : Performance),
        execute_heuristic_search limits agent ta_agent probe board = Return p ->
        exists ta, ta_agent = Some ta).
Proof.
  split; [|split].
  - intros (p & Hrun & _).
    destruct (entry_point_cases limits agent None probe board)
      as [(_ & Hr) | [(ta & e & Hta & _) | (ta & perf_ta & Hta & _)]];
      [|discriminate Hta|discriminate Hta].
    cbn zeta in Hr. rewrite Hr in Hrun. discriminate Hrun.
  - intros agents results Hloop. cbn [agent_loop] in Hloop.
    destruct (agents !! "ta") as [ta|] eqn:Hag; [|discriminate Hloop].
    destruct (evaluate_agent limits "ta" ta (probe "ta") board)
      as [perf_ta | q | e] eqn:Hta; try discriminate Hloop.
    destruct (agents !! "agent") as [a|]; [|discriminate Hloop].
    destruct (evaluate_agent limits "agent" a (probe "agent") board)
      as [perf | q | e]; try discriminate Hloop.
    injection Hloop as <-. exists ta, perf_ta.
    split; [reflexivity|]. split; [|exact Hta].
    rewrite lookup_insert_ne by discriminate. apply lookup_insert_eq.
  - intros ta_agent p Hrun.
    destruct (entry_point_cases limits agent ta_agent probe board)
      as [(_ & Hr) | [(ta & e & Hta & _) | (ta & perf_ta & Hta & _)]];
      [|now exists ta|now exists ta].
    cbn zeta in Hr. rewrite Hr in Hrun. discriminate Hrun.
Qed.

End EntryPointMore.

(** X18. The comparisons with the reference are not strict: a candidate
    with no failure that reached the goal with at most 1 MB, a
    non-negative outcome equal to the reference's, and no more time and
    memory than the reference, gets 5 points. *)
Theorem matching_the_reference_gets_five (results : gmap string Performance)
    (res ta : Performance) :
  results !! "agent" = Some res ->
  results !! "ta" = Some ta ->
  failure res = None ->
  1 < point res ->
  outcome ta = outcome res ->
  xnum_ge (outcome res) (Fin 0) = true ->
  (memory res <= 1)%Q ->
  (time res <= time ta)%Q ->
  (memory res <= memory ta)%Q ->
  exists p, score results = Return p /\ point p = 5.
Proof.
  intros Hag Hta Hf Hp Ho Hnn Hm1 Ht Hm.
  unfold score. rewrite Hag. eexists. split; [reflexivity|]. cbn [point].
  apply (stage_points_spec res (compare_with_ta results res)); try assumption.
  - unfold compare_with_ta. rewrite Hta. cbn. rewrite Ho.
    destruct (outcome res) as [x|]; [|reflexivity].
    cbn in Hnn |- *. apply Z.leb_le in Hnn.
    destruct (Z.ltb_spec 0 x) as [Hpos | Hzero].
    + rewrite (proj2 (Z.leb_le x x)) by lia. reflexivity.
    + assert (x = 0) as -> by lia. reflexivity.
  - now apply Qle_bool_iff.
  - unfold compare_with_ta. rewrite Hta. cbn. now apply Qle_bool_iff.
  - unfold compare_with_ta. rewrite Hta. cbn. now apply Qle_bool_iff.
Qed.

Lemma matching_the_reference_gets_five_witness :
  exists p, score duel_results = Return p /\ point p = 5.
Proof.
  apply (matching_the_reference_gets_five duel_results winner_run winner_run);
    try reflexivity; discriminate.
Defined.

Lemma returned_record_is_well_formed_witness :
  time winner_final = time_delta_of (quiet_probe_of "agent")
  /\ memory winner_final = memory_usage_of winner (quiet_probe_of "agent") start
  /\ search winner_final = None
  /\ 1 <= point winner_final <= 5.
Proof.
  apply (returned_record_is_well_formed default_limits winner (Some winner)
           quiet_probe_of start winner_final).
  vm_compute. reflexivity.
Defined.

Lemma points_above_one_are_earned_witness :
  failure winner_final = None
  /\ exists sol board',
       fst (heuristic_search winner start) = Return (PyList (map Act sol))
       /\ simulate_action start (map Act sol) = Return board'
       /\ is_game_end board' = true
       /\ calculate_total_turns start (PyList (map Act sol))
          = Return (outcome winner_final).
Proof.
  apply (points_above_one_are_earned default_limits winner (Some winner)
           quiet_probe_of start winner_final).
  - vm_compute. reflexivity.
  - cbn. lia.
Defined.

Lemma empty_sequence_has_infinite_outcome_witness :
  (map Act winning_moves = [] -> outcome winner_final = PInf)
  /\ (forall n, outcome winner_final = Fin n ->
       map Act winning_moves <> []
       /\ calculate_total_turns start (PyList (map Act winning_moves))
          = Return (Fin n)).
Proof.
  apply (empty_sequence_has_infinite_outcome default_limits winner (Some winner)
           quiet_probe_of start winner_final
           (PyList (map Act winning_moves)) (map Act winning_moves)).
  - reflexivity.
  - reflexivity.
  - vm_compute. reflexivity.
Defined.

Lemma raising_search_ends_with_one_point_witness :
  failure crasher_final <> None
  /\ outcome crasher_final = PInf /\ point crasher_final = 1.
Proof.
  apply (raising_search_ends_with_one_point default_limits crasher (Some winner)
           quiet_probe_of start crasher_final (OtherError 7)).
  - reflexivity.
  - vm_compute. reflexivity.
Defined.

(** The candidate [winner] has no failure and reaches the goal: against
    itself as the reference it gets 5 points; alone it gets no record. *)
Example winner_against_itself :
  execute_heuristic_search default_limits winner (Some winner) quiet_probe_of start
  = Return winner_final.
Proof. vm_compute. reflexivity. Qed.

Example winner_alone :
  execute_heuristic_search default_limits winner None quiet_probe_of start
  = Raise (KeyError "ta").
Proof. vm_compute. reflexivity. Qed.
